(** * Social profile scraper: discovery, normalisation, dispatch and export

    A shallow embedding of [scraper.py] and [city_scraper.py] together with
    the part of Python's [urllib.parse] the two scripts rely on, and the
    properties of the discovery / deduplication / dispatch / export pipeline
    proved about it.

    Conventions.
    - A Python [str] is a Rocq [string]; its characters are the code points
      below 256.
    - A Python exception is a value of [exn]; a call that may raise returns
      an [outcome].
    - The outside world (search provider, extraction back-ends, clock,
      console, file system) is an explicit state threaded through the
      effectful functions. *)

From Stdlib Require Import Ascii String.
From stdpp Require Import base list strings gmap sorting.

Local Open Scope string_scope.
#[local] Set Warnings "-clear-no-such-hyp".
#[local] Arguments String.append !_ _ / : simpl nomatch.

(** * Python string primitives *)

Module PyStr.

(** [s.find(c)]; [None] stands for Python's [-1]. *)
Fixpoint find (c : ascii) (s : string) : option nat :=
  match s with
  | EmptyString => None
  | String a s' => if Ascii.eqb a c then Some 0 else S <$> find c s'
  end.

(** [s.find(c, start)]. *)
Fixpoint find_from (c : ascii) (start : nat) (s : string) : option nat :=
  match start, s with
  | 0, _ => find c s
  | S _, EmptyString => None
  | S n, String _ s' => S <$> find_from c n s'
  end.

(** [s.rfind(c)]. *)
Fixpoint rfind (c : ascii) (s : string) : option nat :=
  match s with
  | EmptyString => None
  | String a s' =>
      match rfind c s' with
      | Some i => Some (S i)
      | None => if Ascii.eqb a c then Some 0 else None
      end
  end.

(** [c in s] for a one-character [c]. *)
Definition has_char (c : ascii) (s : string) : bool :=
  match find c s with Some _ => true | None => false end.

(** [s[:n]] and [s[n:]] for [0 <= n]. *)
Fixpoint take (n : nat) (s : string) : string :=
  match n, s with
  | S n', String a s' => String a (take n' s')
  | _, _ => EmptyString
  end.

Fixpoint drop (n : nat) (s : string) : string :=
  match n, s with
  | S n', String _ s' => drop n' s'
  | _, _ => s
  end.

(** [s[a:b]] for [0 <= a]. *)
Definition slice (a b : nat) (s : string) : string := take (b - a) (drop a s).

(** [s.startswith(p)]. *)
Fixpoint startswith (p s : string) : bool :=
  match p, s with
  | EmptyString, _ => true
  | String a p', String b s' => Ascii.eqb a b && startswith p' s'
  | String _ _, EmptyString => false
  end.

(** [sub in s]. *)
Fixpoint contains (sub s : string) : bool :=
  startswith sub s ||
  match s with
  | EmptyString => false
  | String _ s' => contains sub s'
  end.

(** [s.lstrip(chars)], the set [chars] given by its membership test. *)
Fixpoint lstrip (chars : ascii -> bool) (s : string) : string :=
  match s with
  | EmptyString => EmptyString
  | String a s' => if chars a then lstrip chars s' else s
  end.

(** [s.rstrip(c)] for a one-character [c]: every trailing [c] goes. *)
Fixpoint rstrip (c : ascii) (s : string) : string :=
  match s with
  | EmptyString => EmptyString
  | String a s' =>
      match rstrip c s' with
      | EmptyString => if Ascii.eqb a c then EmptyString else String a EmptyString
      | r => String a r
      end
  end.

(** [s.replace(c, "")]. *)
Fixpoint remove_char (c : ascii) (s : string) : string :=
  match s with
  | EmptyString => EmptyString
  | String a s' =>
      if Ascii.eqb a c then remove_char c s' else String a (remove_char c s')
  end.

(** [s.split(c, 1)] when [c in s]: the text before and after the first [c]. *)
Definition split1 (c : ascii) (s : string) : string * string :=
  match find c s with
  | Some i => (take i s, drop (S i) s)
  | None => (s, EmptyString)
  end.

(** [s.split(c)]: the pieces between the occurrences of [c]; never empty. *)
Fixpoint split (c : ascii) (s : string) : list string :=
  match s with
  | EmptyString => [EmptyString]
  | String a s' =>
      if Ascii.eqb a c then EmptyString :: split c s'
      else match split c s' with
           | h :: t => String a h :: t
           | [] => [String a EmptyString]
           end
  end.

Definition code (c : ascii) : nat := nat_of_ascii c.

Definition in_range (lo hi : ascii) (c : ascii) : bool :=
  (code lo <=? code c)%nat && (code c <=? code hi)%nat.

(** [c.isascii()]. *)
Definition isascii (c : ascii) : bool := (code c <? 128)%nat.

(** [c.isalpha()] on the ASCII range, the only place it is consulted:
    every use is guarded by [isascii]. *)
Definition isalpha (c : ascii) : bool :=
  in_range "a" "z" c || in_range "A" "Z" c.

Definition isdigit (c : ascii) : bool := in_range "0" "9" c.

(** [s.isascii()]. *)
Fixpoint str_isascii (s : string) : bool :=
  match s with
  | EmptyString => true
  | String a s' => isascii a && str_isascii s'
  end.

(** [s.lower()] on ASCII text. *)
Definition lower_char (c : ascii) : ascii :=
  if in_range "A" "Z" c then ascii_of_nat (code c + 32) else c.

Fixpoint lower (s : string) : string :=
  match s with
  | EmptyString => EmptyString
  | String a s' => String (lower_char a) (lower s')
  end.

(** [all(p(c) for c in s)]. *)
Fixpoint all (p : ascii -> bool) (s : string) : bool :=
  match s with
  | EmptyString => true
  | String a s' => p a && all p s'
  end.

(** Truthiness of a string. *)
Definition truthy (s : string) : bool :=
  match s with EmptyString => false | _ => true end.

End PyStr.

(** * Exceptions *)

(** The exception classes the scripts meet; all derive from [Exception].
    Each carries its message. *)
Inductive exn : Type :=
| ValueError (msg : string)
| QueryReturnedBadRequestException (msg : string)
| Exception (msg : string).

(** [str(e)]. *)
Definition exn_str (e : exn) : string :=
  match e with
  | ValueError m | QueryReturnedBadRequestException m | Exception m => m
  end.

Inductive outcome (A : Type) : Type :=
| Ok (a : A)
| Raise (e : exn).
Arguments Ok {A} a.
Arguments Raise {A} e.

Definition is_ok {A} (o : outcome A) : bool :=
  match o with Ok _ => true | Raise _ => false end.

(** * [urllib.parse] *)

Module Urllib.
Import PyStr.

(** The two netloc checks of [urlsplit] that leave string processing:
    [_check_bracketed_netloc] (the [ipaddress] module and a regular
    expression), which returns the message of the [ValueError] it raises
    or [None] when it passes, and the NFKC part of [_checknetloc]
    ([unicodedata]), which says whether the netloc passes. *)
Class NetlocChecks := {
  check_bracketed_netloc : string -> option string;
  nfkc_netloc_ok : string -> bool
}.

Record SplitResult := {
  sr_scheme : string;
  sr_netloc : string;
  sr_path : string;
  sr_query : string;
  sr_fragment : string
}.

Record ParseResult := {
  scheme : string;
  netloc : string;
  path : string;
  params : string;
  query : string;
  fragment : string
}.

Definition uses_params : list string :=
  [""; "ftp"; "hdl"; "prospero"; "http"; "imap";
   "https"; "shttp"; "rtsp"; "rtspu"; "sip"; "sips";
   "mms"; "sftp"; "tel"].

Definition in_scheme_chars (c : ascii) : bool :=
  in_range "a" "z" c || in_range "A" "Z" c || in_range "0" "9" c ||
  Ascii.eqb c "+" || Ascii.eqb c "-" || Ascii.eqb c ".".

(** Membership in [_WHATWG_C0_CONTROL_OR_SPACE]: code points 0 to 0x20. *)
Definition is_c0_control_or_space (c : ascii) : bool := (code c <=? 32)%nat.

Definition UNSAFE_URL_BYTES_TO_REMOVE : list ascii :=
  ["009"%char; "013"%char; "010"%char].

Definition _splitparams (url : string) : string * string :=
  if has_char "/" url then
    match rfind "/" url with
    | Some r =>
        match find_from ";" r url with
        | Some i => (take i url, drop (S i) url)
        | None => (url, "")
        end
    | None => (url, "")
    end
  else
    match find ";" url with
    | Some i => (take i url, drop (S i) url)
    | None => (take (String.length url - 1) url, url)
    end.

Definition _splitnetloc (url : string) (start : nat) : string * string :=
  let delim :=
    fold_left
      (fun delim c =>
         match find_from c start url with
         | Some wdelim => Nat.min delim wdelim
         | None => delim
         end)
      ["/"%char; "?"%char; "#"%char] (String.length url) in
  (slice start delim url, drop delim url).

Section WithChecks.
Context `{NetlocChecks}.

Definition _checknetloc (netloc : string) : bool :=
  if negb (truthy netloc) || str_isascii netloc then true
  else nfkc_netloc_ok netloc.

Definition urlsplit (url : string) : outcome SplitResult :=
  let url := lstrip is_c0_control_or_space url in
  let url := fold_left (fun u b => remove_char b u) UNSAFE_URL_BYTES_TO_REMOVE url in
  let '(scheme, url) :=
    match find ":" url, url with
    | Some (S i'), String c0 _ =>
        let i := S i' in
        if isascii c0 && isalpha c0 && all in_scheme_chars (take i url)
        then (lower (take i url), drop (S i) url)
        else ("", url)
    | _, _ => ("", url)
    end in
  let split_netloc :=
    if String.eqb (take 2 url) "//" then
      let '(netloc, url) := _splitnetloc url 2 in
      if (has_char "[" netloc && negb (has_char "]" netloc)) ||
         (has_char "]" netloc && negb (has_char "[" netloc))
      then Raise (ValueError "Invalid IPv6 URL")
      else
        match (if has_char "[" netloc && has_char "]" netloc
               then check_bracketed_netloc netloc else None) with
        | Some msg => Raise (ValueError msg)
        | None => Ok (netloc, url)
        end
    else Ok ("", url) in
  match split_netloc with
  | Raise e => Raise e
  | Ok (netloc, url) =>
      let '(url, fragment) :=
        if has_char "#" url then split1 "#" url else (url, "") in
      let '(url, query) :=
        if has_char "?" url then split1 "?" url else (url, "") in
      if _checknetloc netloc then
        Ok {| sr_scheme := scheme; sr_netloc := netloc; sr_path := url;
              sr_query := query; sr_fragment := fragment |}
      else Raise (ValueError ("netloc '" +:+ netloc +:+ "' contains invalid " +:+
                              "characters under NFKC normalization"))
  end.

Definition urlparse (url : string) : outcome ParseResult :=
  match urlsplit url with
  | Raise e => Raise e
  | Ok sr =>
      let '(url, params) :=
        if bool_decide (sr_scheme sr ∈ uses_params) && has_char ";" (sr_path sr)
        then _splitparams (sr_path sr)
        else (sr_path sr, "") in
      Ok {| scheme := sr_scheme sr; netloc := sr_netloc sr; path := url;
            params := params; query := sr_query sr;
            fragment := sr_fragment sr |}
  end.

End WithChecks.

End Urllib.

(** * Values, records and the outside world *)

(** The Python values that occur as fields of a profile record. *)
Inductive pyval : Type :=
| PNone
| PStr (s : string)
| PInt (n : Z).

Global Instance pyval_eq_dec : EqDecision pyval.
Proof. solve_decision. Defined.

(** Truthiness, as [or] and [if] test it. *)
Definition pyval_truthy (v : pyval) : bool :=
  match v with
  | PNone => false
  | PStr s => PyStr.truthy s
  | PInt n => negb (n =? 0)%Z
  end.

(** A profile record and a search hit are Python dicts with string keys. *)
Abbreviation record := (gmap string pyval).
Abbreviation hit := (gmap string string).

(** What [instaloader.Profile] exposes to [extract_instagram_data]. *)
Record ig_profile := {
  ig_username : string;
  ig_full_name : string;
  ig_followers : Z;
  ig_followees : Z;
  ig_mediacount : Z;
  ig_biography : option string;
  ig_external_url : option string
}.

(** One entry of [proxy_links]. *)
Record proxy := { proxy_http : string; proxy_https : string }.

(** The collaborators outside the repository: the search provider
    ([DDGS().text]), the two extraction back-ends
    ([instaloader.Profile.from_username], [facebook_scraper.get_profile]),
    [Instaloader.login], [random.choice] and the session's proxy table.
    Each acts on a state [services] of its own. *)
Class Collaborators := {
  services : Type;
  ddgs_text : string -> Z -> services -> outcome (list hit) * services;
  Profile_from_username : string -> services -> outcome ig_profile * services;
  get_profile : string -> option string -> services -> outcome record * services;
  loader_login : string -> string -> services -> outcome unit * services;
  random_choice : nat -> services -> nat * services;
  proxies_update : proxy -> services -> services
}.

(** Lines written to the console, one constructor per [print] site. *)
Inductive message : Type :=
| MsgLoggedInApi                       (* [i] Logged in to Instagram API. *)
| MsgLoggedIn                          (* [i] Logged into Instagram. *)
| MsgLoginFailed (e : exn)             (* [!] Instagram login failed: {e} *)
| MsgSearching (biz : string)          (* [→] Searching social profiles for '{biz}'… *)
| MsgFailedToScrape (url : string) (e : exn)  (* [!] Failed to scrape {url}: {e} *)
| MsgNoData                            (* [!] No data collected, skipping CSV write. *)
| MsgSaved (n : nat) (output : string) (* [✓] Saved {len(rows)} rows to {output} *)
| MsgUsingProxy (p : proxy)            (* [i] Using proxy: {proxy} *)
| MsgDiscovering (platform city : string)  (* [→] Discovering {Platform} profiles in {city}… *)
| MsgRateLimit                         (* [i] Hit Instagram rate-limit – sleeping 5 min … *)
| MsgFailed (url : string) (e : exn).  (* [!] Failed {url}: {e} *)

Inductive event : Type :=
| EvPrint (m : message)
| EvSleep (seconds : Z).

(** The rows handed to the [csv] writer, header first. *)
Abbreviation table := (list (list pyval)).

Section World.
Context `{Collaborators}.

(** State of a run: the collaborators' state, what was printed and slept
    (oldest first), and the files written. Opening a file for writing is
    taken to succeed. *)
Record world := {
  w_services : services;
  w_events : list event;
  w_files : gmap string table
}.

Definition M (A : Type) : Type := world -> outcome A * world.

Definition ret {A} (a : A) : M A := fun w => (Ok a, w).
Definition raise {A} (e : exn) : M A := fun w => (Raise e, w).
Definition bind {A B} (m : M A) (k : A -> M B) : M B :=
  fun w => match m w with
           | (Ok a, w') => k a w'
           | (Raise e, w') => (Raise e, w')
           end.

(** [try: m / except Exception as e: handler(e)]. *)
Definition try_except {A} (m : M A) (handler : exn -> M A) : M A :=
  fun w => match m w with
           | (Ok a, w') => (Ok a, w')
           | (Raise e, w') => handler e w'
           end.

Definition lift_outcome {A} (o : outcome A) : M A := fun w => (o, w).

Definition call {A} (f : services -> outcome A * services) : M A :=
  fun w => let '(o, s) := f (w_services w) in
           (o, {| w_services := s; w_events := w_events w; w_files := w_files w |}).

Definition emit (e : event) : M unit :=
  fun w => (Ok tt, {| w_services := w_services w;
                      w_events := w_events w ++ [e];
                      w_files := w_files w |}).

Definition print (m : message) : M unit := emit (EvPrint m).
Definition time_sleep (seconds : Z) : M unit := emit (EvSleep seconds).

(** [with open(output, "w") ...] once every row has been written. *)
Definition write_file (output : string) (t : table) : M unit :=
  fun w => (Ok tt, {| w_services := w_services w;
                      w_events := w_events w;
                      w_files := <[output := t]> (w_files w) |}).

End World.

Notation "x <~ m ;; k" := (bind m (fun x => k))
  (at level 100, m at next level, right associativity).
Notation "m ;;; k" := (bind m (fun _ => k))
  (at level 100, right associativity).

Section Loops.
Context `{Collaborators}.

(** [for x in xs: body], the loop's local variables threaded as [acc]. *)
Fixpoint for_fold {A S : Type} (xs : list A) (body : A -> S -> M S) (acc : S) : M S :=
  match xs with
  | [] => ret acc
  | x :: xs' => acc' <~ body x acc ;; for_fold xs' body acc'
  end.

End Loops.

(** The order-preserving deduplication loop, written twice in the source
    ([search_social_links], lines 43-49, and [discover_profiles], lines
    77-83): [seen] is the set, [unique_urls] the list built so far. *)
Fixpoint unique_loop (urls : list string) (seen : gset string)
    (unique_urls : list string) : list string :=
  match urls with
  | [] => unique_urls
  | u :: rest =>
      if decide (u ∉ seen)
      then unique_loop rest ({[u]} ∪ seen) (unique_urls ++ [u])
      else unique_loop rest seen unique_urls
  end.

(** [a or b] on optional strings, and [a or d] with a string default. *)
Definition or_opt (a b : option string) : option string :=
  match a with
  | Some s => if PyStr.truthy s then a else b
  | None => b
  end.

Definition or_str (a : option string) (d : string) : string :=
  match a with
  | Some s => if PyStr.truthy s then s else d
  | None => d
  end.

(** [a or d] on optional values. *)
Definition or_val (a : option pyval) (d : pyval) : pyval :=
  match a with
  | Some v => if pyval_truthy v then v else d
  | None => d
  end.

(** * [scraper.py] *)

Module Scraper.
Import PyStr Urllib.

Section Program.
Context `{NetlocChecks} `{Collaborators}.

(** Lines 39-40: the canonical form of a raw hit URL. *)
Definition clean (url : string) : outcome string :=
  match urlparse url with
  | Raise e => Raise e
  | Ok parsed =>
      Ok (rstrip "/" (scheme parsed +:+ "://" +:+ netloc parsed +:+ path parsed))
  end.

(** Line 37: [r.get("href") or r.get("url") or ""]. *)
Definition hit_url (r : hit) : string :=
  or_str (or_opt (r !! "href") (r !! "url")) "".

(** Lines 35-41: the filtering and cleaning loop. *)
Fixpoint collect_urls (platform : string) (results : list hit)
    (urls : list string) : outcome (list string) :=
  match results with
  | [] => Ok urls
  | r :: rest =>
      let url := hit_url r in
      if contains platform url then
        match clean url with
        | Raise e => Raise e
        | Ok cleaned => collect_urls platform rest (urls ++ [cleaned])
        end
      else collect_urls platform rest urls
  end.

(** Lines 35-49 on a given list of results. *)
Definition links_of_results (platform : string) (results : list hit)
    : outcome (list string) :=
  match collect_urls platform results [] with
  | Raise e => Raise e
  | Ok urls => Ok (unique_loop urls ∅ [])
  end.

Definition search_social_links (business_name platform : string)
    (max_results : Z) : M (list string) :=
  let query :=
    business_name +:+ " " +:+ List.hd "" (split "." platform) +:+ " " +:+ platform in
  results <~ call (ddgs_text query max_results) ;;
  lift_outcome (links_of_results platform results).

Definition ensure_username_from_url (url : string) : outcome string :=
  match urlparse url with
  | Raise e => Raise e
  | Ok parsed =>
      let parts := List.filter truthy (split "/" (path parsed)) in
      Ok (match parts with p :: _ => p | [] => "" end)
  end.

Definition extract_instagram_data (username : string) : M record :=
  profile <~ call (Profile_from_username username) ;;
  ret (list_to_map
         [("platform", PStr "instagram");
          ("username", PStr (ig_username profile));
          ("full_name", PStr (ig_full_name profile));
          ("followers", PInt (ig_followers profile));
          ("following", PInt (ig_followees profile));
          ("posts", PInt (ig_mediacount profile));
          ("url", PStr ("https://www.instagram.com/" +:+ ig_username profile +:+ "/"));
          ("bio", PStr (or_str (ig_biography profile) ""));
          ("external_url", PStr (or_str (ig_external_url profile) ""))]).

Definition extract_facebook_data (username : string) (cookies : option string)
    : M record :=
  profile <~ call (get_profile username cookies) ;;
  ret (list_to_map
         [("platform", PStr "facebook");
          ("username", or_val (profile !! "username") (PStr username));
          ("full_name", default (PStr "") (profile !! "name"));
          ("followers", default PNone (profile !! "followers"));
          ("category", default (PStr "") (profile !! "category"));
          ("url", or_val (profile !! "link")
                    (PStr ("https://www.facebook.com/" +:+ username)));
          ("about", default (PStr "") (profile !! "about"));
          ("website", default (PStr "") (profile !! "website"));
          ("email", default (PStr "") (profile !! "email"));
          ("phone", default (PStr "") (profile !! "phone"));
          ("city", default (PStr "") (profile !! "city"))]).

(** ** Export *)

(** [open(output, "w")]: the file exists and is empty. *)
Definition open_w (output : string) : M unit := write_file output [].

(** One [writerow] of the underlying [csv.writer]. *)
Definition writer_writerow (output : string) (cells : list pyval) : M unit :=
  fun w => write_file output (default [] (w_files w !! output) ++ [cells]) w.

(** [csv.DictWriter._dict_to_list] with the default [restval = ""] and
    [extrasaction = "raise"]. *)
Definition _dict_to_list (fieldnames : list string) (rowdict : record)
    : outcome (list pyval) :=
  if decide (dom rowdict ⊆ list_to_set fieldnames)
  then Ok ((fun key => default (PStr "") (rowdict !! key)) <$> fieldnames)
  else Raise (ValueError "dict contains fields not in fieldnames").

Definition writeheader (output : string) (fieldnames : list string) : M unit :=
  writer_writerow output (PStr <$> fieldnames).

Definition writerow (output : string) (fieldnames : list string)
    (rowdict : record) : M unit :=
  cells <~ lift_outcome (_dict_to_list fieldnames rowdict) ;;
  writer_writerow output cells.

(** Line 102: [sorted({k for row in rows for k in row.keys()})]. *)
Definition fieldnames_of (rows : list record) : list string :=
  merge_sort String.le (elements (⋃ (dom <$> rows) : gset string)).

Definition save_to_csv (rows : list record) (output : string) : M unit :=
  match rows with
  | [] => print MsgNoData
  | _ :: _ =>
      let fieldnames := fieldnames_of rows in
      open_w output ;;;
      writeheader output fieldnames ;;;
      for_fold rows (fun row _ => writerow output fieldnames row) tt ;;;
      print (MsgSaved (length rows) output)
  end.

(** ** [main] *)

Record args := {
  businesses : list string;
  output : string;
  fb_cookies : option string;
  ig_user : option string;
  ig_pass : option string;
  max_results : Z
}.

Definition opt_truthy (o : option string) : bool :=
  match o with Some s => truthy s | None => false end.

(** Lines 125-130. *)
Definition login (user pass : option string) (ok : message) : M unit :=
  match user, pass with
  | Some u, Some p =>
      if truthy u && truthy p then
        try_except (call (loader_login u p) ;;; print ok)
                   (fun e => print (MsgLoginFailed e))
      else ret tt
  | _, _ => ret tt
  end.

(** Lines 140-150: the body of the loop over the discovered URLs. *)
Definition dispatch_url (platform : string) (cookies : option string)
    (url : string) (all_rows : list record) : M (list record) :=
  username <~ lift_outcome (ensure_username_from_url url) ;;
  if negb (truthy username) then ret all_rows
  else
    try_except
      (data <~ (if String.eqb platform "instagram.com"
                then extract_instagram_data username
                else extract_facebook_data username cookies) ;;
       ret (all_rows ++ [data])%list)
      (fun e => print (MsgFailedToScrape url e) ;;; ret all_rows).

(** Lines 139-150: the dispatcher over one platform's URLs. *)
Definition dispatch (platform : string) (cookies : option string)
    (urls : list string) (all_rows : list record) : M (list record) :=
  for_fold urls (dispatch_url platform cookies) all_rows.

Definition main (a : args) : M unit :=
  login (ig_user a) (ig_pass a) MsgLoggedInApi ;;;
  all_rows <~
    for_fold (businesses a)
      (fun biz all_rows =>
         print (MsgSearching biz) ;;;
         for_fold ["instagram.com"; "facebook.com"]
           (fun platform all_rows =>
              urls <~ search_social_links biz platform (max_results a) ;;
              dispatch platform (fb_cookies a) urls all_rows)
           all_rows)
      [] ;;
  save_to_csv all_rows (output a).

End Program.

End Scraper.

(** * [city_scraper.py] *)

Module CityScraper.
Import PyStr Urllib Scraper.

Definition proxy_links : list proxy :=
  (fun a => {| proxy_http := a; proxy_https := a |}) <$>
  ["http://156.228.83.153:3129"; "http://154.213.204.172:3129";
   "http://156.248.81.26:3129"; "http://156.228.106.27:3129";
   "http://156.248.84.6:3129"; "http://156.253.164.134:3129";
   "http://156.228.77.32:3129"; "http://156.228.176.92:3129";
   "http://156.228.114.12:3129"; "http://156.248.83.163:3129"].

Definition DEFAULT_KEYWORDS : list string :=
  ["restaurant"; "bar"; "cafe"; "pub"; "bistro"; "grill"; "steakhouse";
   "brewery"; "hotel"].

Section Program.
Context `{NetlocChecks} `{Collaborators}.

Definition discover_profiles (city : string) (keywords : list string)
    (platform : string) (max_per_keyword : Z) : M (list string) :=
  discovered <~
    for_fold keywords
      (fun kw discovered =>
         let query_term := kw +:+ " " +:+ city in
         urls <~ search_social_links query_term platform max_per_keyword ;;
         ret (discovered ++ urls)%list)
      [] ;;
  ret (unique_loop discovered ∅ []).

(** [if data:] on an optional dict. *)
Definition data_truthy (data : option record) : bool :=
  match data with
  | Some d => negb (bool_decide (d = ∅))
  | None => false
  end.

(** Lines 117-139: the body of the loop over the discovered URLs. *)
Definition dispatch_url (platform : string) (cookies : option string)
    (url : string) (rows : list record) : M (list record) :=
  username <~ lift_outcome (ensure_username_from_url url) ;;
  if negb (truthy username) then ret rows
  else
    try_except
      (data <~
         (if String.eqb platform "instagram.com" then
            try_except
              (d <~ extract_instagram_data username ;; ret (Some d))
              (fun e =>
                 match e with
                 | QueryReturnedBadRequestException _ =>
                     print MsgRateLimit ;;; time_sleep 300 ;;; ret None
                 | _ => print (MsgFailed url e) ;;; ret None
                 end)
          else
            try_except
              (d <~ extract_facebook_data username cookies ;; ret (Some d))
              (fun e => print (MsgFailed url e) ;;; ret None)) ;;
       match data with
       | Some d => if data_truthy data then ret (rows ++ [d])%list else ret rows
       | None => ret rows
       end)
      (fun e => print (MsgFailed url e) ;;; ret rows).

(** Lines 116-139: the dispatcher over one platform's URLs. *)
Definition dispatch (platform : string) (cookies : option string)
    (urls : list string) (rows : list record) : M (list record) :=
  for_fold urls (dispatch_url platform cookies) rows.

Definition scrape_city (city : string) (keywords : list string)
    (cookies ig_user ig_pass : option string) (max_per_keyword : Z)
    (output : string) : M unit :=
  i <~ (fun w => let '(i, s) := random_choice (length proxy_links) (w_services w) in
                 (Ok i, {| w_services := s; w_events := w_events w;
                           w_files := w_files w |})) ;;
  let proxy := default {| proxy_http := ""; proxy_https := "" |} (proxy_links !! i) in
  print (MsgUsingProxy proxy) ;;;
  (fun w => (Ok tt, {| w_services := proxies_update proxy (w_services w);
                       w_events := w_events w; w_files := w_files w |})) ;;;
  login ig_user ig_pass MsgLoggedIn ;;;
  rows <~
    for_fold ["instagram.com"; "facebook.com"]
      (fun platform rows =>
         print (MsgDiscovering platform city) ;;;
         urls <~ discover_profiles city keywords platform max_per_keyword ;;
         dispatch platform cookies urls rows)
      [] ;;
  save_to_csv rows output.

Record args := {
  city : string;
  output : string;
  keywords : option (list string);
  max_per_keyword : Z;
  fb_cookies : option string;
  ig_user : option string;
  ig_pass : option string
}.

Definition main (a : args) : M unit :=
  let keywords :=
    match keywords a with
    | Some (k :: ks) => k :: ks
    | _ => DEFAULT_KEYWORDS
    end in
  scrape_city (city a) keywords (fb_cookies a) (ig_user a) (ig_pass a)
              (max_per_keyword a) (output a).

End Program.

End CityScraper.

(** * A small concrete world

    Used to run the definitions on explicit inputs. The netloc checks accept
    everything; the search provider answers from a fixed table and counts
    its calls; the extractors fail for two fixed user names. *)

Module Demo.
Import Urllib.

Definition accept_all : NetlocChecks :=
  {| check_bracketed_netloc := fun _ => None;
     nfkc_netloc_ok := fun _ => true |}.

Definition href (u : string) : hit := {[ "href" := u ]}.

Definition hits_for (query : string) : list hit :=
  if PyStr.startswith "bar" query then
    [href "https://www.instagram.com/joespizza/?hl=en";
     href "https://www.instagram.com/mainstreetbar/"]
  else if PyStr.startswith "grill" query then
    [href "https://www.instagram.com/thegrill;jsessionid=1/"]
  else if PyStr.startswith "cafe" query then
    [href "https://www.instagram.com/mainstreetbar";
     href "https://example.org/about";
     href "https://www.instagram.com/cafeluna/"]
  else [].

Definition profile_of (u : string) : ig_profile :=
  {| ig_username := u; ig_full_name := u; ig_followers := 10;
     ig_followees := 2; ig_mediacount := 5; ig_biography := None;
     ig_external_url := None |}.

Definition world_of : Collaborators :=
  {| services := nat;
     ddgs_text := fun q _ n => (Ok (hits_for q), S n);
     Profile_from_username := fun u n =>
       if String.eqb u "limited"
       then (Raise (QueryReturnedBadRequestException "400 Bad Request"), S n)
       else if String.eqb u "broken" then (Raise (Exception "boom"), S n)
       else (Ok (profile_of u), S n);
     get_profile := fun u _ n =>
       if String.eqb u "broken" then (Raise (Exception "boom"), S n)
       else (Ok {[ "name" := PStr u ]}, S n);
     loader_login := fun _ _ n => (Ok tt, n);
     random_choice := fun _ n => (0, n);
     proxies_update := fun _ n => n |}.

(** The world after [n] calls to the services, with the given console
    output and files. *)
Definition at_call (n : nat) (evs : list event) (files : gmap string table)
    : @world world_of :=
  {| w_services := (n : @services world_of); w_events := evs; w_files := files |}.

Definition w0 : @world world_of := at_call 0 [] ∅.

End Demo.

(** * Definitions used to state the properties *)

Section Observations.
Import PyStr Urllib Scraper.
Context `{NetlocChecks} `{Collaborators}.

(** What each call of [search_social_links] made by [discover_profiles]
    returns, one list per keyword, in keyword order. *)
Definition per_term_results (city : string) (keywords : list string)
    (platform : string) (max_per_keyword : Z) : M (list (list string)) :=
  for_fold keywords
    (fun kw acc =>
       urls <~ search_social_links (kw +:+ " " +:+ city) platform max_per_keyword ;;
       ret (acc ++ [urls])%list)
    [].

End Observations.

Section Footprint.
Context `{Collaborators}.

(** [m] writes no file. *)
Definition keeps_files {A} (m : M A) : Prop :=
  forall w, w_files (snd (m w)) = w_files w.

(** [m] neither prints nor sleeps. *)
Definition keeps_events {A} (m : M A) : Prop :=
  forall w, w_events (snd (m w)) = w_events w.

End Footprint.

Section Extraction.
Import PyStr Urllib Scraper.
Context `{Collaborators}.

(** The extractor call both dispatchers make for a platform
    ([scraper.py] lines 144-147, [city_scraper.py] lines 122-132). *)
Definition extractor (platform : string) (cookies : option string)
    (username : string) : M record :=
  if String.eqb platform "instagram.com"
  then extract_instagram_data username
  else extract_facebook_data username cookies.

(** A world around a state of the services; the extractors look at nothing
    else. *)
Definition blank (s : services) : world :=
  {| w_services := s; w_events := []; w_files := ∅ |}.

(** The outcome of the extractor on each user name in turn, and the state of
    the services after the last call. *)
Fixpoint extraction_outcomes (platform : string) (cookies : option string)
    (names : list string) (s : services) : list (outcome record) * services :=
  match names with
  | [] => ([], s)
  | n :: ns =>
      let '(o, w) := extractor platform cookies n (blank s) in
      let '(os, s') := extraction_outcomes platform cookies ns (w_services w) in
      (o :: os, s')
  end.

(** The records among a list of outcomes, in order. *)
Fixpoint successes (outs : list (outcome record)) : list record :=
  match outs with
  | [] => []
  | Ok r :: rest => r :: successes rest
  | Raise _ :: rest => successes rest
  end.

(** The rate-limit signal of the Instagram extractor. *)
Definition is_rate_limit (e : exn) : bool :=
  match e with QueryReturnedBadRequestException _ => true | _ => false end.

(** The seconds slept, in order, among a list of events. *)
Fixpoint sleeps (evs : list event) : list Z :=
  match evs with
  | [] => []
  | EvSleep n :: rest => n :: sleeps rest
  | EvPrint _ :: rest => sleeps rest
  end.

(** [url] yields the non-empty user name [name]. *)
Definition has_username `{Urllib.NetlocChecks} (url name : string) : Prop :=
  ensure_username_from_url url = Ok name /\ truthy name = true.

(** The cooldowns the rate-limit rule of [city_scraper.py] owes for a list
    of extractor outcomes. *)
Fixpoint cooldowns (platform : string) (outs : list (outcome record)) : list Z :=
  match outs with
  | [] => []
  | Raise e :: rest =>
      if String.eqb platform "instagram.com" && is_rate_limit e
      then 300%Z :: cooldowns platform rest
      else cooldowns platform rest
  | Ok _ :: rest => cooldowns platform rest
  end.

End Extraction.

Section Spans.
Import PyStr Urllib.

(** The longest prefix of [s] with no character in the class [P], and what
    follows it. *)
Fixpoint before (P : ascii -> bool) (s : string) : string :=
  match s with
  | EmptyString => EmptyString
  | String a s' => if P a then EmptyString else String a (before P s')
  end.

Fixpoint from (P : ascii -> bool) (s : string) : string :=
  match s with
  | EmptyString => EmptyString
  | String a s' => if P a then s else from P s'
  end.

Definition is_char (c : ascii) : ascii -> bool := fun a => Ascii.eqb a c.

(** The characters that end a netloc, and those that end a path. *)
Definition is_delim (a : ascii) : bool :=
  Ascii.eqb a "/" || Ascii.eqb a "?" || Ascii.eqb a "#".

Definition ends_path (a : ascii) : bool := Ascii.eqb a "?" || Ascii.eqb a "#".

(** [s] ends with the character [c]. *)
Fixpoint ends_with (c : ascii) (s : string) : bool :=
  match s with
  | EmptyString => false
  | String a EmptyString => Ascii.eqb a c
  | String _ s' => ends_with c s'
  end.

(** [s] starts with an ASCII letter. *)
Definition starts_alpha (s : string) : bool :=
  match s with
  | String c0 _ => isascii c0 && isalpha c0
  | EmptyString => false
  end.

(** The string of [n] characters [c]. *)
Fixpoint replicate_char (n : nat) (c : ascii) : string :=
  match n with
  | 0 => EmptyString
  | S n' => String c (replicate_char n' c)
  end.

(** The first steps of [urlsplit]: leading controls and spaces stripped,
    tab, CR and LF removed. *)
Definition sanitize (url : string) : string :=
  fold_left (fun u b => remove_char b u) UNSAFE_URL_BYTES_TO_REMOVE
    (lstrip is_c0_control_or_space url).

(** The scheme step of [urlsplit] on a sanitized URL: the scheme (empty
    when there is none) and the rest. *)
Definition split_scheme (url : string) : string * string :=
  match find ":" url, url with
  | Some (S i'), String c0 _ =>
      let i := S i' in
      if isascii c0 && isalpha c0 && all in_scheme_chars (take i url)
      then (lower (take i url), drop (S i) url)
      else ("", url)
  | _, _ => ("", url)
  end.

(** The netloc step, by spans: after [//] the netloc runs up to the first
    delimiter. *)
Definition split_netloc (url : string) : string * string :=
  if startswith "//" url
  then (before is_delim (drop 2 url), from is_delim (drop 2 url))
  else ("", url).

Context `{NetlocChecks}.

(** The error [urlsplit] raises for a netloc, if any. *)
Definition netloc_error (netloc : string) : option exn :=
  if (has_char "[" netloc && negb (has_char "]" netloc)) ||
     (has_char "]" netloc && negb (has_char "[" netloc))
  then Some (ValueError "Invalid IPv6 URL")
  else
    match (if has_char "[" netloc && has_char "]" netloc
           then check_bracketed_netloc netloc else None) with
    | Some msg => Some (ValueError msg)
    | None =>
        if _checknetloc netloc then None
        else Some (ValueError ("netloc '" +:+ netloc +:+ "' contains invalid " +:+
                               "characters under NFKC normalization"))
    end.

(** Scheme, netloc and what follows the netloc, by spans. *)
Definition url_parts (url : string) : string * string * string :=
  let '(sch, r) := split_scheme (sanitize url) in
  let '(nl, rest) := split_netloc r in
  (sch, nl, rest).

(** The path [urlparse] reports for a scheme and the path of [urlsplit]. *)
Definition strip_params (scheme path : string) : string :=
  if bool_decide (scheme ∈ uses_params) && has_char ";" path
  then fst (_splitparams path)
  else path.

End Spans.


(** * Further definitions for the statements *)

(** The field names of an Instagram record, of a Facebook record, and of
    both together, in sorted order. *)
Definition INSTAGRAM_FIELDS : list string :=
  ["bio"; "external_url"; "followers"; "following"; "full_name"; "platform";
   "posts"; "url"; "username"].

Definition FACEBOOK_FIELDS : list string :=
  ["about"; "category"; "city"; "email"; "followers"; "full_name"; "phone";
   "platform"; "url"; "username"; "website"].

Definition ALL_FIELDS : list string :=
  ["about"; "bio"; "category"; "city"; "email"; "external_url"; "followers";
   "following"; "full_name"; "phone"; "platform"; "posts"; "url"; "username";
   "website"].

(** The cells of a record under given field names: its value, or the empty
    string for a field it lacks. *)
Definition row_cells (fieldnames : list string) (r : record) : list pyval :=
  (fun key => default (PStr "") (r !! key)) <$> fieldnames.



(** A character that ends neither a netloc nor a path segment and is not
    removed by [urlsplit]: none of [/ ? # ;], tab, CR and LF. *)
Definition name_char (a : ascii) : bool :=
  negb (is_delim a || Ascii.eqb a ";" || Ascii.eqb a "009" || Ascii.eqb a "013"
        || Ascii.eqb a "010").


(** A second concrete world: the search fails for the keyword [pub], and
    answers the keyword [inn] with a hit whose URL [urlparse] accepts but
    whose canonical form it rejects. *)
Module Faulty.

Definition hits_for (query : string) : list hit :=
  if PyStr.startswith "inn" query then
    [Demo.href "https://www.instagram.com/theinn";
     Demo.href "http:[instagram.com/oldinn"]
  else Demo.hits_for query.

Definition world_of : Collaborators :=
  {| services := nat;
     ddgs_text := fun q _ n =>
       if PyStr.startswith "pub" q then (Raise (Exception "timed out"), S n)
       else (Ok (hits_for q), S n);
     Profile_from_username := fun u n => (Ok (Demo.profile_of u), S n);
     get_profile := fun u _ n => (Ok {[ "name" := PStr u ]}, S n);
     loader_login := fun _ _ n => (Raise (Exception "bad credentials"), S n);
     random_choice := fun _ n => (3, n);
     proxies_update := fun _ n => n |}.

Definition at_call (n : nat) (evs : list event) (files : gmap string table)
    : @world world_of :=
  {| w_services := (n : @services world_of); w_events := evs; w_files := files |}.

Definition w0 : @world world_of := at_call 0 [] ∅.

End Faulty.

(** * Running the world monad *)

Section Run.
Context `{Collaborators}.

Lemma bind_run {A B} (m : M A) (k : A -> M B) w :
  bind m k w =
  match m w with
  | (Ok a, w') => k a w'
  | (Raise e, w') => (Raise e, w')
  end.
Proof. reflexivity. Qed.

Lemma ret_run {A} (a : A) w : ret a w = (Ok a, w).
Proof. reflexivity. Qed.

Lemma try_except_run {A} (m : M A) handler w :
  try_except m handler w =
  match m w with
  | (Ok a, w') => (Ok a, w')
  | (Raise e, w') => handler e w'
  end.
Proof. reflexivity. Qed.

Lemma lift_outcome_run {A} (o : outcome A) w : lift_outcome o w = (o, w).
Proof. reflexivity. Qed.

Lemma for_fold_cons {A S} (x : A) xs (body : A -> S -> M S) acc w :
  for_fold (x :: xs) body acc w =
  match body x acc w with
  | (Ok acc', w') => for_fold xs body acc' w'
  | (Raise e, w') => (Raise e, w')
  end.
Proof. reflexivity. Qed.

Lemma for_fold_app {A S} (xs ys : list A) (body : A -> S -> M S) : forall acc w,
  for_fold (xs ++ ys) body acc w =
  match for_fold xs body acc w with
  | (Ok acc', w') => for_fold ys body acc' w'
  | (Raise e, w') => (Raise e, w')
  end.
Proof.
  induction xs as [|x xs IH]; intros acc w; [done|].
  rewrite <- app_comm_cons, !for_fold_cons.
  destruct (body x acc w) as [[acc'|e] w']; [apply IH|done].
Qed.

End Run.

(** * Facts about strings *)

Section StringFacts.
Import PyStr.

Lemma append_empty_r s : s +:+ "" = s.
Proof. induction s as [|a s IH]; simpl; [done|by rewrite IH]. Qed.

Lemma append_assoc' s1 s2 s3 : (s1 +:+ s2) +:+ s3 = s1 +:+ (s2 +:+ s3).
Proof. induction s1 as [|a s1 IH]; simpl; [done|by rewrite IH]. Qed.

Lemma length_append s1 s2 :
  String.length (s1 +:+ s2) = String.length s1 + String.length s2.
Proof. induction s1 as [|a s1 IH]; simpl; [done|by rewrite IH]. Qed.

Lemma before_from P s : before P s +:+ from P s = s.
Proof.
  induction s as [|a s IH]; simpl; [done|].
  destruct (P a); simpl; [done|by rewrite IH].
Qed.

Lemma before_app_hit P a c x :
  P c = true -> before P (a +:+ String c x) = before P a.
Proof.
  intros Hc. induction a as [|b a IH]; simpl; [by rewrite Hc|].
  destruct (P b); [done|by rewrite IH].
Qed.

Lemma from_app_hit P a c x :
  P c = true -> from P (a +:+ String c x) = from P a +:+ String c x.
Proof.
  intros Hc. induction a as [|b a IH]; simpl; [by rewrite Hc|].
  destruct (P b); [done|by rewrite IH].
Qed.

Lemma before_before P Q s :
  before P (before Q s) = before (fun a => P a || Q a) s.
Proof.
  induction s as [|a s IH]; simpl; [done|].
  destruct (Q a), (P a) eqn:HP; simpl; rewrite ?HP, ?IH; done.
Qed.

Lemma before_ext P Q s : (forall a, P a = Q a) -> before P s = before Q s.
Proof.
  intros HPQ. induction s as [|a s IH]; simpl; [done|]. by rewrite HPQ, IH.
Qed.

Lemma all_before P s : all (fun a => negb (P a)) (before P s) = true.
Proof.
  induction s as [|a s IH]; simpl; [done|].
  destruct (P a) eqn:HP; simpl; [done|]. by rewrite HP, IH.
Qed.

Lemma before_all P s : all (fun a => negb (P a)) s = true -> before P s = s.
Proof.
  induction s as [|a s IH]; simpl; [done|].
  destruct (P a); simpl; [done|]. intros Hs. by rewrite IH.
Qed.

Lemma from_head P s :
  from P s = "" \/ exists c x, from P s = String c x /\ P c = true.
Proof.
  induction s as [|a s IH]; simpl; [by left|].
  destruct (P a) eqn:HP; [right; eauto|done].
Qed.

Lemma take_length_before P s : take (String.length (before P s)) s = before P s.
Proof.
  induction s as [|a s IH]; simpl; [done|].
  destruct (P a); simpl; [done|by rewrite IH].
Qed.

Lemma drop_length_before P s : drop (String.length (before P s)) s = from P s.
Proof.
  induction s as [|a s IH]; simpl; [done|].
  destruct (P a); simpl; [done|by rewrite IH].
Qed.

Lemma length_before_le P s : String.length (before P s) <= String.length s.
Proof.
  induction s as [|a s IH]; simpl; [done|]. destruct (P a); simpl; lia.
Qed.

Lemma length_before_or P Q s :
  String.length (before (fun a => P a || Q a) s) =
  String.length (before P s) `min` String.length (before Q s).
Proof.
  induction s as [|a s IH]; simpl; [done|].
  destruct (P a), (Q a); simpl; try done. by rewrite IH.
Qed.

(** [find] in terms of spans. *)
Lemma find_before c s :
  find c s =
  if has_char c s then Some (String.length (before (is_char c) s)) else None.
Proof.
  unfold has_char, is_char. induction s as [|a s IH]; simpl; [done|].
  destruct (Ascii.eqb a c); simpl; [done|].
  rewrite IH. by destruct (find c s).
Qed.

Lemma find_default c s :
  default (String.length s) (find c s) = String.length (before (is_char c) s).
Proof.
  unfold is_char. induction s as [|a s IH]; simpl; [done|].
  destruct (Ascii.eqb a c); simpl; [done|].
  rewrite <- IH. by destruct (find c s).
Qed.

Lemma has_char_before c s : has_char c s = false -> before (is_char c) s = s.
Proof.
  unfold has_char, is_char. induction s as [|a s IH]; simpl; [done|].
  destruct (Ascii.eqb a c); simpl; [done|].
  destruct (find c s); simpl; [done|]. intros _. by rewrite IH.
Qed.

Lemma has_char_from c s : has_char c s = false -> from (is_char c) s = "".
Proof.
  unfold has_char, is_char. induction s as [|a s IH]; simpl; [done|].
  destruct (Ascii.eqb a c); simpl; [done|].
  destruct (find c s); simpl; [done|]. intros _. by rewrite IH.
Qed.

(** [split1] in terms of spans: the text before the first [c]. *)
Lemma split1_fst c s :
  fst (if has_char c s then split1 c s else (s, "")) = before (is_char c) s.
Proof.
  destruct (has_char c s) eqn:Hc.
  - unfold split1. rewrite find_before, Hc. simpl. apply take_length_before.
  - simpl. symmetry. by apply has_char_before.
Qed.

Lemma drop_drop n m s : drop n (drop m s) = drop (m + n) s.
Proof.
  revert s. induction m as [|m IH]; intros s; simpl; [done|].
  destruct s as [|a s]; simpl; [by destruct n|apply IH].
Qed.

Lemma length_drop n s : String.length (drop n s) = String.length s - n.
Proof.
  revert s. induction n as [|n IH]; intros s; simpl; [lia|].
  destruct s as [|a s]; simpl; [done|apply IH].
Qed.

Lemma find_from_drop c n s :
  n <= String.length s ->
  find_from c n s = (fun i => n + i) <$> find c (drop n s).
Proof.
  revert s. induction n as [|n IH]; intros s Hn; simpl.
  - by destruct (find c s).
  - destruct s as [|a s]; simpl in *; [lia|].
    rewrite IH by lia. by destruct (find c (drop n s)).
Qed.

Lemma take_app_l n s1 s2 :
  n <= String.length s1 -> take n (s1 +:+ s2) = take n s1.
Proof.
  revert s1. induction n as [|n IH]; intros s1 Hn; simpl; [done|].
  destruct s1 as [|a s1]; simpl in *; [lia|]. rewrite IH by lia. done.
Qed.

Lemma drop_app_l n s1 s2 :
  n <= String.length s1 -> drop n (s1 +:+ s2) = drop n s1 +:+ s2.
Proof.
  revert s1. induction n as [|n IH]; intros s1 Hn; simpl; [done|].
  destruct s1 as [|a s1]; simpl in *; [lia|]. apply IH. lia.
Qed.

Lemma take_drop n s : take n s +:+ drop n s = s.
Proof.
  revert s. induction n as [|n IH]; intros s; simpl; [done|].
  destruct s as [|a s]; simpl; [done|]. by rewrite IH.
Qed.

Lemma all_app P s1 s2 : all P (s1 +:+ s2) = all P s1 && all P s2.
Proof.
  induction s1 as [|a s1 IH]; simpl; [done|]. by rewrite IH, andb_assoc.
Qed.

Lemma all_impl (P Q : ascii -> bool) s :
  (forall a, P a = true -> Q a = true) -> all P s = true -> all Q s = true.
Proof.
  intros HPQ. induction s as [|a s IH]; simpl; [done|].
  intros [Ha Hs]%andb_prop. rewrite (HPQ a Ha). by apply IH.
Qed.

Lemma all_take P n s : all P s = true -> all P (take n s) = true.
Proof.
  revert s. induction n as [|n IH]; intros s; simpl; [by destruct s|].
  destruct s as [|a s]; simpl; [done|].
  intros [Ha Hs]%andb_prop. rewrite Ha. by apply IH.
Qed.

Lemma all_drop P n s : all P s = true -> all P (drop n s) = true.
Proof.
  revert s. induction n as [|n IH]; intros s; simpl; [by destruct s|].
  destruct s as [|a s]; simpl; [done|].
  intros [Ha Hs]%andb_prop. by apply IH.
Qed.

Lemma all_before_sub P Q s : all P s = true -> all P (before Q s) = true.
Proof.
  induction s as [|a s IH]; simpl; [done|].
  intros [Ha Hs]%andb_prop. destruct (Q a); simpl; [done|]. rewrite Ha. by apply IH.
Qed.

Lemma all_from P Q s : all P s = true -> all P (from Q s) = true.
Proof.
  induction s as [|a s IH]; simpl; [done|].
  intros [Ha Hs]%andb_prop. destruct (Q a); simpl; [by rewrite Ha|by apply IH].
Qed.

Lemma all_lstrip P Q s : all P s = true -> all P (lstrip Q s) = true.
Proof.
  induction s as [|a s IH]; simpl; [done|].
  intros [Ha Hs]%andb_prop. destruct (Q a); simpl; [by apply IH|by rewrite Ha].
Qed.

Lemma all_remove_char P c s : all P s = true -> all P (remove_char c s) = true.
Proof.
  induction s as [|a s IH]; simpl; [done|].
  intros [Ha Hs]%andb_prop. destruct (Ascii.eqb a c); simpl; [by apply IH|].
  rewrite Ha. by apply IH.
Qed.

Lemma all_rstrip P c s : all P s = true -> all P (rstrip c s) = true.
Proof.
  induction s as [|a s IH]; simpl; [done|].
  intros [Ha Hs]%andb_prop. specialize (IH Hs).
  destruct (rstrip c s) as [|b r]; simpl in *.
  - destruct (Ascii.eqb a c); simpl; [done|by rewrite Ha].
  - by rewrite Ha.
Qed.

Lemma has_char_all c s :
  has_char c s = false <-> all (fun a => negb (Ascii.eqb a c)) s = true.
Proof.
  unfold has_char. induction s as [|a s IH]; simpl; [done|].
  destruct (Ascii.eqb a c); simpl; [done|].
  rewrite <- IH. by destruct (find c s).
Qed.

Lemma has_char_app c s1 s2 :
  has_char c (s1 +:+ s2) = has_char c s1 || has_char c s2.
Proof.
  unfold has_char. induction s1 as [|a s1 IH]; simpl; [done|].
  destruct (Ascii.eqb a c); simpl; [done|].
  destruct (find c (s1 +:+ s2)), (find c s1); simpl in *; done.
Qed.

Lemma rstrip_ends_with c s : ends_with c (rstrip c s) = false.
Proof.
  induction s as [|a s IH]; simpl; [done|].
  destruct (rstrip c s) as [|b r] eqn:Hr.
  - destruct (Ascii.eqb a c) eqn:Ha; simpl; [done|by rewrite Ha].
  - change (ends_with c (String a (String b r))) with (ends_with c (String b r)).
    exact IH.
Qed.

Lemma rstrip_app_char c s : rstrip c (s +:+ String c "") = rstrip c s.
Proof.
  induction s as [|a s IH]; simpl.
  - by rewrite Ascii.eqb_refl.
  - by rewrite IH.
Qed.

Lemma find_lt c s i : find c s = Some i -> i < String.length s.
Proof.
  revert i. induction s as [|a s IH]; intros i; simpl; [done|].
  destruct (Ascii.eqb a c); [intros [= <-]; lia|].
  destruct (find c s) as [j|]; simpl; [|done].
  intros [= <-]. specialize (IH j eq_refl). lia.
Qed.

Lemma find_app c s1 s2 :
  find c (s1 +:+ s2) =
  match find c s1 with
  | Some i => Some i
  | None => (fun i => String.length s1 + i) <$> find c s2
  end.
Proof.
  induction s1 as [|a s1 IH]; simpl; [by destruct (find c s2)|].
  destruct (Ascii.eqb a c); [done|]. rewrite IH.
  destruct (find c s1); simpl; [done|]. by destruct (find c s2).
Qed.

Lemma all_take_past P s1 c x n :
  P c = false -> String.length s1 < n ->
  all P (take n (s1 +:+ String c x)) = false.
Proof.
  intros Hc. revert n. induction s1 as [|a s1 IH]; intros n Hn; simpl in *.
  - destruct n; [lia|]. simpl. by rewrite Hc.
  - destruct n; [lia|]. simpl. rewrite IH by lia. apply andb_false_r.
Qed.

Lemma lstrip_app_miss P s c x :
  P c = false -> lstrip P (s +:+ String c x) = lstrip P s +:+ String c x.
Proof.
  intros Hc. induction s as [|a s IH]; simpl; [by rewrite Hc|].
  destruct (P a); [apply IH|done].
Qed.

Lemma remove_char_app d s1 s2 :
  remove_char d (s1 +:+ s2) = remove_char d s1 +:+ remove_char d s2.
Proof.
  induction s1 as [|a s1 IH]; simpl; [done|].
  destruct (Ascii.eqb a d); simpl; by rewrite IH.
Qed.

Lemma before_app_miss P s1 s2 :
  before P (s1 +:+ s2) =
  if all (fun a => negb (P a)) s1 then s1 +:+ before P s2 else before P s1.
Proof.
  induction s1 as [|a s1 IH]; simpl; [done|].
  destruct (P a); simpl; [done|]. rewrite IH.
  by destruct (all (fun a => negb (P a)) s1).
Qed.

End StringFacts.

(** * Deduplication *)

Section UniqueLoop.

Lemma unique_loop_acc urls : forall seen acc,
  unique_loop urls seen acc = (acc ++ unique_loop urls seen [])%list.
Proof.
  induction urls as [|u rest IH]; intros seen acc; simpl.
  - by rewrite app_nil_r.
  - case_decide.
    + rewrite (IH _ (acc ++ [u])%list), (IH _ [u]). by rewrite <- app_assoc.
    + apply IH.
Qed.

Lemma unique_loop_elem urls : forall seen acc u,
  u ∈ unique_loop urls seen acc <-> u ∈ acc \/ (u ∈ urls /\ u ∉ seen).
Proof.
  induction urls as [|x rest IH]; intros seen acc u; simpl.
  - set_solver.
  - case_decide as Hx.
    + rewrite IH. rewrite elem_of_app, list_elem_of_singleton, elem_of_cons.
      destruct (decide (u = x)) as [->|Hne]; set_solver.
    + rewrite IH. rewrite elem_of_cons.
      destruct (decide (u = x)) as [->|Hne]; [|set_solver].
      split; [|set_solver]. intros [?|[? ?]]; [by left|]. right. split; [by left|done].
Qed.

Lemma unique_loop_NoDup urls : forall seen acc,
  NoDup acc -> (forall x, x ∈ acc -> x ∈ seen) ->
  NoDup (unique_loop urls seen acc).
Proof.
  induction urls as [|x rest IH]; intros seen acc Hnd Hsub; simpl; [done|].
  case_decide as Hx.
  - apply IH.
    + apply NoDup_app. split_and!; [done| |apply NoDup_singleton].
      intros y Hy Hy'. apply list_elem_of_singleton in Hy'. subst. auto.
    + intros y. rewrite elem_of_app, list_elem_of_singleton. set_solver.
  - by apply IH.
Qed.

Lemma unique_loop_app l1 : forall l2 seen acc,
  unique_loop (l1 ++ l2) seen acc =
  unique_loop l2 (list_to_set l1 ∪ seen) (unique_loop l1 seen acc).
Proof.
  induction l1 as [|x l1 IH]; intros l2 seen acc; simpl.
  - f_equal. set_solver.
  - case_decide as Hx.
    + rewrite IH. f_equal. set_solver.
    + rewrite IH. f_equal. set_solver.
Qed.

(** The first occurrence of [u] lands right after the distinct elements that
    precede it. *)
Lemma unique_loop_first_occurrence l1 u l2 :
  u ∉ l1 ->
  exists tail,
    unique_loop (l1 ++ u :: l2) ∅ [] = (unique_loop l1 ∅ [] ++ u :: tail)%list.
Proof.
  intros Hu. rewrite unique_loop_app. simpl.
  rewrite decide_True by set_solver.
  rewrite unique_loop_acc. rewrite <- app_assoc. simpl. eauto.
Qed.

End UniqueLoop.

(** * Link discovery: filtering, cleaning, deduplication *)

Section Discovery.
Import PyStr Urllib Scraper.
Context `{NetlocChecks}.

Lemma collect_urls_app platform l1 : forall l2 acc,
  collect_urls platform (l1 ++ l2) acc =
  match collect_urls platform l1 acc with
  | Ok urls => collect_urls platform l2 urls
  | Raise e => Raise e
  end.
Proof.
  induction l1 as [|r l1 IH]; intros l2 acc; simpl; [done|].
  destruct (contains platform (hit_url r)); [|apply IH].
  destruct (clean (hit_url r)); [apply IH|done].
Qed.

Lemma collect_urls_skip platform l1 h l2 acc :
  contains platform (hit_url h) = false ->
  collect_urls platform (l1 ++ h :: l2) acc = collect_urls platform (l1 ++ l2) acc.
Proof.
  intros Hh. rewrite !collect_urls_app.
  destruct (collect_urls platform l1 acc); [|done].
  simpl. by rewrite Hh.
Qed.

Lemma collect_urls_elem platform results : forall acc urls,
  collect_urls platform results acc = Ok urls ->
  forall u, u ∈ urls <->
    u ∈ acc \/
    exists h, h ∈ results /\ contains platform (hit_url h) = true /\
              clean (hit_url h) = Ok u.
Proof.
  induction results as [|r rest IH]; intros acc urls Hc u; simpl in Hc.
  - inversion Hc; subst. split; [by left|]. intros [?|(h & Hh & _)]; [done|].
    by apply elem_of_nil in Hh.
  - destruct (contains platform (hit_url r)) eqn:Hr.
    + destruct (clean (hit_url r)) as [c|e] eqn:Hcl; [|done].
      rewrite (IH _ _ Hc). rewrite elem_of_app, list_elem_of_singleton.
      split.
      * intros [[? | ->] | (h & Hh & ? & ?)]; [by left| |].
        -- right. exists r. split_and!; [by left|done|done].
        -- right. exists h. split_and!; [by right|done|done].
      * intros [?|(h & Hh & Hp & Hcu)]; [by left; left|].
        apply elem_of_cons in Hh as [->|Hh].
        -- left. right. congruence.
        -- right. eauto.
    + rewrite (IH _ _ Hc). split.
      * intros [?|(h & Hh & ? & ?)]; [by left|].
        right. exists h. split_and!; [by right|done|done].
      * intros [?|(h & Hh & Hp & Hcu)]; [by left|].
        apply elem_of_cons in Hh as [->|Hh]; [congruence|].
        right. eauto.
Qed.

Lemma links_of_results_elem platform results out :
  links_of_results platform results = Ok out ->
  forall u, u ∈ out <->
    exists h, h ∈ results /\ contains platform (hit_url h) = true /\
              clean (hit_url h) = Ok u.
Proof.
  unfold links_of_results.
  destruct (collect_urls platform results []) as [urls|e] eqn:Hc; [|done].
  intros [= <-] u. rewrite unique_loop_elem, (collect_urls_elem _ _ _ _ Hc).
  set_solver.
Qed.

Lemma links_of_results_NoDup platform results out :
  links_of_results platform results = Ok out -> NoDup out.
Proof.
  unfold links_of_results.
  destruct (collect_urls platform results []) as [urls|e]; [|done].
  intros [= <-]. apply unique_loop_NoDup; [constructor|set_solver].
Qed.

Context `{Collaborators}.

Lemma search_social_links_unfold business_name platform max_results w :
  search_social_links business_name platform max_results w =
  let query :=
    business_name +:+ " " +:+ List.hd "" (split "." platform) +:+ " " +:+ platform in
  let '(o, s) := ddgs_text query max_results (w_services w) in
  let w' := {| w_services := s; w_events := w_events w; w_files := w_files w |} in
  match o with
  | Ok results => (links_of_results platform results, w')
  | Raise e => (Raise e, w')
  end.
Proof.
  unfold search_social_links, bind, call, lift_outcome. cbv zeta.
  destruct (ddgs_text _ _ _) as [[results|e] s]; reflexivity.
Qed.

(** C7. The platform filter of discovery is a substring test on the raw
    URL: a hit whose raw URL lacks the platform string has no influence on
    the result wherever it stands in the list of hits; the result holds
    exactly the cleaned URLs of the hits whose raw URL has the platform
    string anywhere in it; and [search_social_links] applies this to the
    hits the search provider returned. *)
Theorem platform_filter_is_substring_test (platform : string) :
  (forall l1 h l2,
      contains platform (hit_url h) = false ->
      links_of_results platform (l1 ++ h :: l2) = links_of_results platform (l1 ++ l2))
  /\ (forall results out,
        links_of_results platform results = Ok out ->
        forall u, u ∈ out <->
          exists h, h ∈ results /\ contains platform (hit_url h) = true /\
                    clean (hit_url h) = Ok u)
  /\ (forall business_name max_results w results s,
        ddgs_text
          (business_name +:+ " " +:+ List.hd "" (split "." platform) +:+ " " +:+ platform)
          max_results (w_services w) = (Ok results, s) ->
        fst (search_social_links business_name platform max_results w) =
        links_of_results platform results).
Proof.
  split_and!.
  - intros l1 h l2 Hh. unfold links_of_results.
    by rewrite (collect_urls_skip _ _ _ _ _ Hh).
  - apply links_of_results_elem.
  - intros business_name max_results w results s Hd.
    rewrite search_social_links_unfold. cbv zeta. by rewrite Hd.
Qed.

End Discovery.

(** The filter at work: a hit on another site passes when the platform string
    occurs in its query string, and a hit without it is dropped. *)
Example platform_filter_demo :
  @Scraper.links_of_results Demo.accept_all "instagram.com"
    [Demo.href "https://example.org/?ref=instagram.com";
     Demo.href "https://www.facebook.com/joespizza";
     Demo.href "https://www.instagram.com/joespizza/"]
  = Ok ["https://example.org"; "https://www.instagram.com/joespizza"].
Proof. vm_compute. reflexivity. Qed.

(** * Aggregation across keywords *)

Section Aggregation.
Import PyStr Urllib Scraper CityScraper.
Context `{NetlocChecks} `{Collaborators}.

Lemma for_fold_discovered city platform max_per_keyword keywords :
  forall (acc : list (list string)) w,
    for_fold keywords
      (fun kw discovered =>
         let query_term := kw +:+ " " +:+ city in
         urls <~ search_social_links query_term platform max_per_keyword ;;
         ret (discovered ++ urls)%list)
      (concat acc) w =
    match for_fold keywords
            (fun kw acc =>
               urls <~ search_social_links (kw +:+ " " +:+ city) platform max_per_keyword ;;
               ret (acc ++ [urls])%list)
            acc w with
    | (Ok rs, w') => (Ok (concat rs), w')
    | (Raise e, w') => (Raise e, w')
    end.
Proof.
  induction keywords as [|kw kws IH]; intros acc w; [done|].
  rewrite !for_fold_cons. cbv zeta. rewrite !bind_run.
  destruct (search_social_links _ _ _ w) as [[urls|e] w1]; [|done].
  rewrite !ret_run.
  replace (concat acc ++ urls)%list with (concat (acc ++ [urls])).
  - apply IH.
  - rewrite concat_app. simpl. by rewrite app_nil_r.
Qed.

Lemma discover_profiles_unfold city keywords platform max_per_keyword w :
  discover_profiles city keywords platform max_per_keyword w =
  match per_term_results city keywords platform max_per_keyword w with
  | (Ok rs, w') => (Ok (unique_loop (concat rs) ∅ []), w')
  | (Raise e, w') => (Raise e, w')
  end.
Proof.
  unfold discover_profiles, per_term_results. rewrite bind_run.
  pose proof (for_fold_discovered city platform max_per_keyword keywords [] w) as Hf.
  change (concat []) with (@nil string) in Hf. cbv zeta in Hf. rewrite Hf. clear Hf.
  by destruct (for_fold _ _ _ w) as [[rs|e] w'].
Qed.

(** C1. Whatever the platform and the list of query terms, when the
    per-term searches return the lists [rs] (in term order),
    [discover_profiles] returns a list without duplicates that holds exactly
    the URLs of the concatenation of [rs], each at the place of its first
    occurrence there: the URLs before it in the result are exactly the
    distinct URLs that come before that first occurrence. *)
Theorem discover_profiles_first_seen_wins city keywords platform max_per_keyword w rs w' :
  per_term_results city keywords platform max_per_keyword w = (Ok rs, w') ->
  exists out,
    discover_profiles city keywords platform max_per_keyword w = (Ok out, w')
    /\ NoDup out
    /\ (forall u, u ∈ out <-> u ∈ concat rs)
    /\ (forall l1 u l2,
          concat rs = (l1 ++ u :: l2)%list -> u ∉ l1 ->
          exists before after,
            out = (before ++ u :: after)%list
            /\ (forall v, v ∈ before <-> v ∈ l1)).
Proof.
  intros Hrs. exists (unique_loop (concat rs) ∅ []).
  split_and!.
  - by rewrite discover_profiles_unfold, Hrs.
  - apply unique_loop_NoDup; [constructor|set_solver].
  - intros u. rewrite unique_loop_elem. set_solver.
  - intros l1 u l2 -> Hu.
    destruct (unique_loop_first_occurrence l1 u l2 Hu) as [tail Ht].
    exists (unique_loop l1 ∅ []), tail. split; [done|].
    intros v. rewrite unique_loop_elem. set_solver.
Qed.

End Aggregation.

(** Two keywords whose results overlap: the shared profile is kept once,
    where the first keyword put it. *)
Lemma discover_profiles_first_seen_wins_witness :
  exists out,
    @CityScraper.discover_profiles Demo.accept_all Demo.world_of
      "Chicago" ["bar"; "cafe"] "instagram.com" 10 Demo.w0
    = (Ok out, Demo.at_call 2 [] ∅)
    /\ NoDup out
    /\ (forall u, u ∈ out <->
          u ∈ concat [["https://www.instagram.com/joespizza";
                       "https://www.instagram.com/mainstreetbar"];
                      ["https://www.instagram.com/mainstreetbar";
                       "https://www.instagram.com/cafeluna"]])
    /\ (forall l1 u l2,
          concat [["https://www.instagram.com/joespizza";
                   "https://www.instagram.com/mainstreetbar"];
                  ["https://www.instagram.com/mainstreetbar";
                   "https://www.instagram.com/cafeluna"]] = (l1 ++ u :: l2)%list ->
          u ∉ l1 ->
          exists before after,
            out = (before ++ u :: after)%list
            /\ (forall v, v ∈ before <-> v ∈ l1)).
Proof.
  apply (@discover_profiles_first_seen_wins Demo.accept_all Demo.world_of
           "Chicago" ["bar"; "cafe"] "instagram.com" 10 Demo.w0).
  vm_compute. reflexivity.
Defined.

(** * Export *)

Section ExportTable.
Import PyStr Urllib Scraper.
Context `{NetlocChecks} `{Collaborators}.

Lemma fieldnames_of_elem rows k :
  k ∈ fieldnames_of rows <-> exists r, r ∈ rows /\ is_Some (r !! k).
Proof.
  unfold fieldnames_of. rewrite merge_sort_Permutation, elem_of_elements.
  rewrite elem_of_union_list. split.
  - intros (X & HX & Hk). apply list_elem_of_fmap in HX as (r & -> & Hr).
    exists r. split; [done|]. by apply elem_of_dom.
  - intros (r & Hr & Hk). exists (dom r). split.
    + apply list_elem_of_fmap. eauto.
    + by apply elem_of_dom.
Qed.

Lemma fieldnames_of_NoDup rows : NoDup (fieldnames_of rows).
Proof.
  unfold fieldnames_of. rewrite merge_sort_Permutation. apply NoDup_elements.
Qed.

Lemma fieldnames_of_sorted rows : StronglySorted String.le (fieldnames_of rows).
Proof. apply StronglySorted_merge_sort; apply _. Qed.

Lemma dict_to_list_ok rows r :
  r ∈ rows ->
  _dict_to_list (fieldnames_of rows) r =
  Ok ((fun key => default (PStr "") (r !! key)) <$> fieldnames_of rows).
Proof.
  intros Hr. unfold _dict_to_list. rewrite decide_True; [done|].
  intros k Hk. apply elem_of_list_to_set, fieldnames_of_elem.
  exists r. split; [done|]. by apply elem_of_dom.
Qed.

(** The rows of [rs] are appended, one [writerow] each, to what the file
    already holds. *)
Lemma writerows_run output fieldnames (cells : record -> list pyval) rs :
  forall w t,
    (forall r, r ∈ rs -> _dict_to_list fieldnames r = Ok (cells r)) ->
    w_files w !! output = Some t ->
    for_fold rs (fun row _ => writerow output fieldnames row) tt w =
    (Ok tt, {| w_services := w_services w; w_events := w_events w;
               w_files := <[output := (t ++ (cells <$> rs))%list]> (w_files w) |}).
Proof.
  induction rs as [|r rs IH]; intros w t Hok Ht.
  - simpl. rewrite ret_run. destruct w as [s ev fs]; simpl in *.
    rewrite app_nil_r. by rewrite insert_id.
  - rewrite for_fold_cons. unfold writerow at 1. rewrite bind_run, lift_outcome_run.
    rewrite (Hok r) by (by left).
    unfold writer_writerow, write_file. rewrite Ht. simpl.
    rewrite (IH _ (t ++ [cells r])%list).
    + simpl. rewrite insert_insert_eq, <- app_assoc. done.
    + intros r' Hr'. apply Hok. by right.
    + simpl. by rewrite lookup_insert_eq.
Qed.

(** C8. For a non-empty list of records the export writes, under the output
    name, a header followed by one row per record in record order. The
    header is the sorted, duplicate-free list of exactly the field names
    that occur in some record; the cell of a record under a field is the
    record's value for it, and the empty string when the record lacks the
    field. *)
Theorem save_to_csv_header_and_rows (rows : list record) (output : string) w :
  rows <> [] ->
  exists header body w',
    save_to_csv rows output w = (Ok tt, w')
    /\ w_files w' !! output = Some ((PStr <$> header) :: body)
    /\ StronglySorted String.le header
    /\ NoDup header
    /\ (forall k, k ∈ header <-> exists r, r ∈ rows /\ is_Some (r !! k))
    /\ length body = length rows
    /\ (forall i r, rows !! i = Some r ->
          exists row, body !! i = Some row /\ length row = length header /\
            forall j k, header !! j = Some k ->
              row !! j = Some (match r !! k with Some v => v | None => PStr "" end)).
Proof.
  intros Hne. destruct rows as [|r0 rs]; [done|].
  set (rows := r0 :: rs) in *.
  set (cells := fun r : record =>
                  (fun key => default (PStr "") (r !! key)) <$> fieldnames_of rows).
  exists (fieldnames_of rows), (cells <$> rows).
  eexists. split_and!.
  - unfold save_to_csv. fold rows. cbv zeta. unfold rows at 1.
    rewrite bind_run. unfold open_w at 1, write_file at 1.
    rewrite bind_run. unfold writeheader, writer_writerow, write_file at 1.
    simpl w_files. rewrite lookup_insert_eq. simpl default.
    rewrite bind_run.
    rewrite (writerows_run output (fieldnames_of rows) cells rows _
               [PStr <$> fieldnames_of rows]).
    + unfold print, emit. simpl. reflexivity.
    + intros r Hr. by apply dict_to_list_ok.
    + simpl. by rewrite lookup_insert_eq.
  - simpl. rewrite lookup_insert_eq. simpl. reflexivity.
  - apply fieldnames_of_sorted.
  - apply fieldnames_of_NoDup.
  - apply fieldnames_of_elem.
  - by rewrite length_fmap.
  - intros i r Hi. exists (cells r). split_and!.
    + by rewrite list_lookup_fmap, Hi.
    + unfold cells. by rewrite length_fmap.
    + intros j k Hj. unfold cells. rewrite list_lookup_fmap, Hj. simpl.
      by destruct (r !! k).
Qed.

End ExportTable.

Lemma save_to_csv_header_and_rows_witness :
  exists header body w',
    @Scraper.save_to_csv Demo.world_of
      [ {[ "a" := PInt 1; "b" := PInt 2 ]}; {[ "a" := PInt 3; "c" := PStr "x" ]} ]
      "out.csv" Demo.w0 = (Ok tt, w')
    /\ w_files w' !! "out.csv" = Some ((PStr <$> header) :: body)
    /\ StronglySorted String.le header
    /\ NoDup header
    /\ (forall k, k ∈ header <->
          exists r, r ∈ [ ({[ "a" := PInt 1; "b" := PInt 2 ]} : record);
                          {[ "a" := PInt 3; "c" := PStr "x" ]} ] /\ is_Some (r !! k))
    /\ length body = 2
    /\ (forall i r,
          [ ({[ "a" := PInt 1; "b" := PInt 2 ]} : record);
            {[ "a" := PInt 3; "c" := PStr "x" ]} ] !! i = Some r ->
          exists row, body !! i = Some row /\ length row = length header /\
            forall j k, header !! j = Some k ->
              row !! j = Some (match r !! k with Some v => v | None => PStr "" end)).
Proof.
  apply (@save_to_csv_header_and_rows Demo.world_of
           [ {[ "a" := PInt 1; "b" := PInt 2 ]}; {[ "a" := PInt 3; "c" := PStr "x" ]} ]
           "out.csv" Demo.w0).
  discriminate.
Defined.

(** Records with the field sets {a, b} and {a, c}: the header is a, b, c and
    the first record's row is empty under c. *)
Example save_to_csv_heterogeneous :
  w_files (snd (@Scraper.save_to_csv Demo.world_of
      [ {[ "a" := PInt 1; "b" := PInt 2 ]}; {[ "a" := PInt 3; "c" := PStr "x" ]} ]
      "out.csv" Demo.w0)) !! "out.csv"
  = Some [ [PStr "a"; PStr "b"; PStr "c"];
           [PInt 1; PInt 2; PStr ""];
           [PInt 3; PStr ""; PStr "x"] ].
Proof. vm_compute. reflexivity. Qed.

(** * What a computation leaves untouched *)

Section FootprintLemmas.
Import PyStr Urllib Scraper CityScraper.
Context `{NetlocChecks} `{Collaborators}.

Lemma keeps_files_ret {A} (a : A) : keeps_files (ret a).
Proof. by intros w. Qed.

Lemma keeps_files_lift {A} (o : outcome A) : keeps_files (lift_outcome o).
Proof. by intros w. Qed.

Lemma keeps_files_call {A} (f : services -> outcome A * services) :
  keeps_files (call f).
Proof. intros w. unfold call. by destruct (f _). Qed.

Lemma keeps_files_emit e : keeps_files (emit e).
Proof. by intros w. Qed.

Lemma keeps_files_bind {A B} (m : M A) (k : A -> M B) :
  keeps_files m -> (forall a, keeps_files (k a)) -> keeps_files (bind m k).
Proof.
  intros Hm Hk w. rewrite bind_run. specialize (Hm w).
  destruct (m w) as [[a|e] w1]; simpl in *; [|done].
  by rewrite Hk.
Qed.

Lemma keeps_files_try {A} (m : M A) handler :
  keeps_files m -> (forall e, keeps_files (handler e)) ->
  keeps_files (try_except m handler).
Proof.
  intros Hm Hh w. rewrite try_except_run. specialize (Hm w).
  destruct (m w) as [[a|e] w1]; simpl in *; [done|].
  by rewrite Hh.
Qed.

Lemma keeps_files_for_fold {A S} (xs : list A) (body : A -> S -> M S) :
  (forall x acc, keeps_files (body x acc)) ->
  forall acc, keeps_files (for_fold xs body acc).
Proof.
  intros Hb. induction xs as [|x xs IH]; intros acc; [apply keeps_files_ret|].
  simpl. apply keeps_files_bind; [apply Hb|apply IH].
Qed.

Lemma keeps_files_search business_name platform max_results :
  keeps_files (search_social_links business_name platform max_results).
Proof.
  apply keeps_files_bind; [apply keeps_files_call|].
  intros results. apply keeps_files_lift.
Qed.

Lemma keeps_files_discover city keywords platform max_per_keyword :
  keeps_files (discover_profiles city keywords platform max_per_keyword).
Proof.
  apply keeps_files_bind; [|intros; apply keeps_files_ret].
  apply keeps_files_for_fold. intros kw acc.
  apply keeps_files_bind; [apply keeps_files_search|intros; apply keeps_files_ret].
Qed.

Lemma keeps_files_login user pass ok : keeps_files (login user pass ok).
Proof.
  unfold login. destruct user as [u|], pass as [p|]; try apply keeps_files_ret.
  destruct (truthy u && truthy p); [|apply keeps_files_ret].
  apply keeps_files_try.
  - apply keeps_files_bind; [apply keeps_files_call|intros; apply keeps_files_emit].
  - intros e. apply keeps_files_emit.
Qed.

(** A failed login is reported and the run goes on. *)
Lemma login_ok user pass ok w : fst (login user pass ok w) = Ok tt.
Proof.
  unfold login. destruct user as [u|], pass as [p|]; try done.
  destruct (truthy u && truthy p); [|done].
  rewrite try_except_run, bind_run. unfold call.
  by destruct (loader_login u p (w_services w)) as [[[]|e] s].
Qed.

End FootprintLemmas.

(** * Runs that collect nothing *)

Section EmptyRun.
Import PyStr Urllib Scraper CityScraper.
Context `{NetlocChecks} `{Collaborators}.

Lemma save_to_csv_nil output w :
  save_to_csv [] output w =
  (Ok tt, {| w_services := w_services w;
             w_events := w_events w ++ [EvPrint MsgNoData];
             w_files := w_files w |}).
Proof. reflexivity. Qed.

Lemma dispatch_nil_city platform cookies rows w :
  CityScraper.dispatch platform cookies [] rows w = (Ok rows, w).
Proof. reflexivity. Qed.

Lemma city_loop_empty city keywords cookies max_per_keyword platforms :
  (forall platform w1,
      fst (discover_profiles city keywords platform max_per_keyword w1) = Ok []) ->
  forall w,
    fst (for_fold platforms
           (fun platform rows =>
              print (MsgDiscovering platform city) ;;;
              urls <~ discover_profiles city keywords platform max_per_keyword ;;
              CityScraper.dispatch platform cookies urls rows)
           [] w) = Ok [].
Proof.
  intros Hd. induction platforms as [|p ps IH]; intros w; [done|].
  rewrite for_fold_cons, bind_run. unfold print at 1, emit at 1.
  rewrite bind_run.
  specialize (Hd p {| w_services := w_services w;
                      w_events := w_events w ++ [EvPrint (MsgDiscovering p city)];
                      w_files := w_files w |}).
  destruct (discover_profiles _ _ _ _ _) as [o w1]. simpl in Hd. subst o.
  rewrite dispatch_nil_city. apply IH.
Qed.

Lemma main_loop_empty (a : Scraper.args) bizs :
  (forall biz platform w1,
      fst (search_social_links biz platform (max_results a) w1) = Ok []) ->
  forall w,
    fst (for_fold bizs
           (fun biz all_rows =>
              print (MsgSearching biz) ;;;
              for_fold ["instagram.com"; "facebook.com"]
                (fun platform all_rows =>
                   urls <~ search_social_links biz platform (max_results a) ;;
                   Scraper.dispatch platform (Scraper.fb_cookies a) urls all_rows)
                all_rows)
           [] w) = Ok [].
Proof.
  intros Hs. induction bizs as [|b bs IH]; intros w; [done|].
  rewrite for_fold_cons, bind_run. unfold print at 1, emit at 1.
  rewrite !for_fold_cons, bind_run.
  pose proof (Hs b "instagram.com") as H1. pose proof (Hs b "facebook.com") as H2.
  match goal with |- context [search_social_links b "instagram.com" ?m ?w1] =>
    specialize (H1 w1); destruct (search_social_links b "instagram.com" m w1) as [o1 w2]
  end.
  simpl in H1. subst o1. unfold Scraper.dispatch at 1. simpl for_fold at 1.
  rewrite ret_run, for_fold_cons, bind_run.
  specialize (H2 w2). destruct (search_social_links b "facebook.com" _ w2) as [o2 w3].
  simpl in H2. subst o2. unfold Scraper.dispatch at 1. simpl for_fold at 1.
  rewrite ret_run. simpl for_fold at 1. rewrite ret_run. apply IH.
Qed.

(** C9. With no record the export writes no file and ends normally, its only
    effect a console line saying that nothing was collected. Hence a run of
    either script in which discovery finds no URL for any platform ends
    without error, with the same files as before and that console line
    last. *)
Theorem empty_export_is_noop :
  (forall output w,
      save_to_csv [] output w =
      (Ok tt, {| w_services := w_services w;
                 w_events := w_events w ++ [EvPrint MsgNoData];
                 w_files := w_files w |}))
  /\ (forall city keywords cookies ig_user ig_pass max_per_keyword output w,
        (forall platform w1,
            fst (discover_profiles city keywords platform max_per_keyword w1) = Ok []) ->
        exists w',
          scrape_city city keywords cookies ig_user ig_pass max_per_keyword output w
          = (Ok tt, w')
          /\ w_files w' = w_files w
          /\ last (w_events w') = Some (EvPrint MsgNoData))
  /\ (forall (a : Scraper.args) w,
        (forall biz platform w1,
            fst (search_social_links biz platform (max_results a) w1) = Ok []) ->
        exists w',
          Scraper.main a w = (Ok tt, w')
          /\ w_files w' = w_files w
          /\ last (w_events w') = Some (EvPrint MsgNoData)).
Proof.
  split_and!.
  - apply save_to_csv_nil.
  - intros city keywords cookies ig_user ig_pass max_per_keyword output w Hd.
    unfold scrape_city. rewrite bind_run.
    destruct (random_choice _ _) as [i s]. rewrite !bind_run.
    unfold print at 1, emit at 1. cbn [w_services w_events w_files].
    rewrite bind_run. cbv beta iota. cbn [w_services w_events w_files].
    rewrite bind_run.
    match goal with |- context [login ig_user ig_pass MsgLoggedIn ?w1] =>
      pose proof (login_ok ig_user ig_pass MsgLoggedIn w1) as Hl;
      pose proof (keeps_files_login ig_user ig_pass MsgLoggedIn w1) as Hlf;
      destruct (login ig_user ig_pass MsgLoggedIn w1) as [o w2]
    end.
    simpl in Hl, Hlf. subst o. rewrite bind_run.
    pose proof (city_loop_empty city keywords cookies max_per_keyword
                  ["instagram.com"; "facebook.com"] Hd w2) as Hloop.
    assert (keeps_files
              (for_fold ["instagram.com"; "facebook.com"]
                 (fun platform rows =>
                    print (MsgDiscovering platform city) ;;;
                    urls <~ discover_profiles city keywords platform max_per_keyword ;;
                    CityScraper.dispatch platform cookies urls rows) [])) as Hk.
    { apply keeps_files_for_fold. intros p acc.
      apply keeps_files_bind; [apply keeps_files_emit|]. intros _.
      unfold keeps_files in *. intros w3. rewrite bind_run.
      pose proof (Hd p w3) as Hd3. pose proof (keeps_files_discover city keywords p max_per_keyword w3) as Hf3.
      destruct (discover_profiles _ _ _ _ w3) as [o3 w4]. simpl in *. by subst o3. }
    specialize (Hk w2).
    destruct (for_fold _ _ _ w2) as [o w3]. simpl in Hloop, Hk. subst o.
    rewrite save_to_csv_nil. eexists. split_and!; [reflexivity| |].
    + simpl. by rewrite Hk, Hlf.
    + simpl. by rewrite last_snoc.
  - intros a w Hs. unfold Scraper.main. rewrite bind_run.
    pose proof (login_ok (Scraper.ig_user a) (Scraper.ig_pass a) MsgLoggedInApi w) as Hl.
    pose proof (keeps_files_login (Scraper.ig_user a) (Scraper.ig_pass a) MsgLoggedInApi w) as Hlf.
    destruct (login _ _ _ w) as [o w2]. simpl in Hl, Hlf. subst o.
    rewrite bind_run.
    pose proof (main_loop_empty a (businesses a) Hs w2) as Hloop.
    assert (keeps_files
              (for_fold (businesses a)
                 (fun biz all_rows =>
                    print (MsgSearching biz) ;;;
                    for_fold ["instagram.com"; "facebook.com"]
                      (fun platform all_rows =>
                         urls <~ search_social_links biz platform (max_results a) ;;
                         Scraper.dispatch platform (Scraper.fb_cookies a) urls all_rows)
                      all_rows) [])) as Hk.
    { apply keeps_files_for_fold. intros b acc.
      apply keeps_files_bind; [apply keeps_files_emit|]. intros _.
      apply keeps_files_for_fold. intros p acc'.
      intros w3. rewrite bind_run.
      pose proof (Hs b p w3) as Hs3.
      pose proof (keeps_files_search b p (max_results a) w3) as Hf3.
      destruct (search_social_links _ _ _ w3) as [o3 w4]. simpl in *. by subst o3. }
    specialize (Hk w2).
    destruct (for_fold _ _ _ w2) as [o w3]. simpl in Hloop, Hk. subst o.
    rewrite save_to_csv_nil. eexists. split_and!; [reflexivity| |].
    + simpl. by rewrite Hk, Hlf.
    + simpl. by rewrite last_snoc.
Qed.

End EmptyRun.

(** A city run whose only keyword finds nothing: no file, no error. *)
Example scrape_city_nothing_found :
  @CityScraper.scrape_city Demo.accept_all Demo.world_of
    "Chicago" ["pub"] None None None 10 "city_profiles.csv" Demo.w0
  = (Ok tt,
     Demo.at_call 2
       [EvPrint (MsgUsingProxy {| proxy_http := "http://156.228.83.153:3129";
                                  proxy_https := "http://156.228.83.153:3129" |});
        EvPrint (MsgDiscovering "instagram.com" "Chicago");
        EvPrint (MsgDiscovering "facebook.com" "Chicago");
        EvPrint MsgNoData]
       ∅).
Proof. vm_compute. reflexivity. Qed.

(** * The extraction dispatchers *)

Section Dispatch.
Import PyStr Urllib Scraper.
Context `{NetlocChecks} `{Collaborators}.

(** An extractor call reads and changes the services only. *)
Lemma extractor_frame platform cookies username w :
  extractor platform cookies username w =
  (fst (extractor platform cookies username (blank (w_services w))),
   {| w_services := w_services (snd (extractor platform cookies username (blank (w_services w))));
      w_events := w_events w; w_files := w_files w |}).
Proof.
  unfold extractor, extract_instagram_data, extract_facebook_data.
  destruct (String.eqb platform "instagram.com"); rewrite !bind_run; unfold call; simpl.
  - by destruct (Profile_from_username username (w_services w)) as [[p|e] s].
  - by destruct (get_profile username cookies (w_services w)) as [[p|e] s].
Qed.

(** A record built by an extractor has a ["platform"] field. *)
Lemma extractor_record_nonempty platform cookies username w d w' :
  extractor platform cookies username w = (Ok d, w') -> d <> ∅.
Proof.
  unfold extractor, extract_instagram_data, extract_facebook_data.
  destruct (String.eqb platform "instagram.com"); rewrite bind_run; unfold call.
  - destruct (Profile_from_username username (w_services w)) as [[p|e] s]; [|done].
    rewrite ret_run. intros [= <- <-] He.
    apply (f_equal (fun m : record => m !! "platform")) in He.
    simpl in He. by rewrite lookup_insert_eq, lookup_empty in He.
  - destruct (get_profile username cookies (w_services w)) as [[p|e] s]; [|done].
    rewrite ret_run. intros [= <- <-] He.
    apply (f_equal (fun m : record => m !! "platform")) in He.
    simpl in He. by rewrite lookup_insert_eq, lookup_empty in He.
Qed.

(** One step of the dispatcher of [scraper.py]. *)
Lemma main_dispatch_url_run platform cookies url username rows w :
  ensure_username_from_url url = Ok username -> truthy username = true ->
  Scraper.dispatch_url platform cookies url rows w =
  match extractor platform cookies username w with
  | (Ok d, w') => (Ok (rows ++ [d])%list, w')
  | (Raise e, w') =>
      (Ok rows, {| w_services := w_services w';
                   w_events := w_events w' ++ [EvPrint (MsgFailedToScrape url e)];
                   w_files := w_files w' |})
  end.
Proof.
  intros Hu Ht. unfold Scraper.dispatch_url.
  rewrite bind_run, lift_outcome_run, Hu, Ht. cbn [negb].
  rewrite try_except_run, bind_run. fold (extractor platform cookies username).
  by destruct (extractor platform cookies username w) as [[d|e] w'].
Qed.

(** One step of the dispatcher of [city_scraper.py]. *)
Lemma city_dispatch_url_run platform cookies url username rows w :
  ensure_username_from_url url = Ok username -> truthy username = true ->
  CityScraper.dispatch_url platform cookies url rows w =
  match extractor platform cookies username w with
  | (Ok d, w') => (Ok (rows ++ [d])%list, w')
  | (Raise e, w') =>
      (Ok rows,
       {| w_services := w_services w';
          w_events :=
            w_events w' ++
            (if String.eqb platform "instagram.com" && is_rate_limit e
             then [EvPrint MsgRateLimit; EvSleep 300]
             else [EvPrint (MsgFailed url e)]);
          w_files := w_files w' |})
  end.
Proof.
  intros Hu Ht. unfold CityScraper.dispatch_url.
  rewrite bind_run, lift_outcome_run, Hu, Ht. cbn [negb].
  rewrite try_except_run, bind_run.
  pose proof (extractor_record_nonempty platform cookies username w) as Hne.
  unfold extractor in *.
  destruct (String.eqb platform "instagram.com"); rewrite try_except_run, bind_run.
  - destruct (extract_instagram_data username w) as [[d|e] w'].
    + rewrite ret_run. unfold CityScraper.data_truthy.
      rewrite bool_decide_eq_false_2 by eauto. done.
    + destruct e; simpl; unfold print, time_sleep, emit; rewrite ?bind_run; simpl;
        rewrite <- ?app_assoc; done.
  - destruct (extract_facebook_data username cookies w) as [[d|e] w'].
    + rewrite ret_run. unfold CityScraper.data_truthy.
      rewrite bool_decide_eq_false_2 by eauto. done.
    + unfold print, emit; rewrite ?bind_run; simpl. done.
Qed.

Lemma sleeps_app evs1 evs2 : sleeps (evs1 ++ evs2) = (sleeps evs1 ++ sleeps evs2)%list.
Proof.
  induction evs1 as [|[m|n] evs1 IH]; simpl; [done|done|by rewrite IH].
Qed.

(** The dispatcher of [scraper.py] over a whole list: the records are the
    successes in order, every URL costs one extractor call, nothing is
    slept and no file is written. *)
Lemma main_dispatch_run platform cookies urls names :
  Forall2 has_username urls names ->
  forall rows w outs s',
    extraction_outcomes platform cookies names (w_services w) = (outs, s') ->
    exists w',
      Scraper.dispatch platform cookies urls rows w = (Ok (rows ++ successes outs)%list, w')
      /\ w_services w' = s'
      /\ w_files w' = w_files w
      /\ sleeps (w_events w') = sleeps (w_events w).
Proof.
  induction 1 as [|u n us ns [Hu Ht] _ IH]; intros rows w outs s' Ho.
  - simpl in Ho. injection Ho as <- <-. exists w. simpl. by rewrite app_nil_r.
  - simpl in Ho. unfold Scraper.dispatch. rewrite for_fold_cons.
    rewrite (main_dispatch_url_run _ _ _ _ _ _ Hu Ht), extractor_frame.
    destruct (extractor platform cookies n (blank (w_services w))) as [o w1].
    destruct (extraction_outcomes platform cookies ns (w_services w1)) as [os s1] eqn:Hos.
    injection Ho as <- <-. simpl fst. simpl snd. destruct o as [d|e].
    + match goal with |- context [for_fold us _ _ ?W] =>
        destruct (IH (rows ++ [d])%list W os s1) as (w' & Hd & Hs & Hf & Hsl); [exact Hos|]
      end.
      exists w'. unfold Scraper.dispatch in Hd. rewrite Hd. simpl.
      by rewrite <- app_assoc.
    + match goal with |- context [for_fold us _ _ ?W] =>
        destruct (IH rows W os s1) as (w' & Hd & Hs & Hf & Hsl); [exact Hos|]
      end.
      exists w'. unfold Scraper.dispatch in Hd. rewrite Hd. simpl in *.
      split_and!; [done..|]. rewrite Hsl, sleeps_app. simpl. by rewrite app_nil_r.
Qed.

(** The dispatcher of [city_scraper.py] over a whole list: as above, and
    the sleeps are one cooldown of 300 seconds per rate-limit signal. *)
Lemma city_dispatch_run platform cookies urls names :
  Forall2 has_username urls names ->
  forall rows w outs s',
    extraction_outcomes platform cookies names (w_services w) = (outs, s') ->
    exists w',
      CityScraper.dispatch platform cookies urls rows w
      = (Ok (rows ++ successes outs)%list, w')
      /\ w_services w' = s'
      /\ w_files w' = w_files w
      /\ sleeps (w_events w') = (sleeps (w_events w) ++ cooldowns platform outs)%list.
Proof.
  induction 1 as [|u n us ns [Hu Ht] _ IH]; intros rows w outs s' Ho.
  - simpl in Ho. injection Ho as <- <-. exists w. simpl. by rewrite !app_nil_r.
  - simpl in Ho. unfold CityScraper.dispatch. rewrite for_fold_cons.
    rewrite (city_dispatch_url_run _ _ _ _ _ _ Hu Ht), extractor_frame.
    destruct (extractor platform cookies n (blank (w_services w))) as [o w1].
    destruct (extraction_outcomes platform cookies ns (w_services w1)) as [os s1] eqn:Hos.
    injection Ho as <- <-. simpl fst. simpl snd. destruct o as [d|e].
    + match goal with |- context [for_fold us _ _ ?W] =>
        destruct (IH (rows ++ [d])%list W os s1) as (w' & Hd & Hs & Hf & Hsl); [exact Hos|]
      end.
      exists w'. unfold CityScraper.dispatch in Hd. rewrite Hd. simpl.
      by rewrite <- app_assoc.
    + match goal with |- context [for_fold us _ _ ?W] =>
        destruct (IH rows W os s1) as (w' & Hd & Hs & Hf & Hsl); [exact Hos|]
      end.
      exists w'. unfold CityScraper.dispatch in Hd. rewrite Hd. simpl in *.
      split_and!; [done..|]. rewrite Hsl, sleeps_app.
      destruct (String.eqb platform "instagram.com" && is_rate_limit e); simpl.
      * by rewrite <- app_assoc.
      * by rewrite app_nil_r.
Qed.

Lemma extraction_outcomes_length platform cookies names :
  forall s, length (fst (extraction_outcomes platform cookies names s)) = length names.
Proof.
  induction names as [|n ns IH]; intros s; simpl; [done|].
  destruct (extractor platform cookies n (blank s)) as [o w1].
  specialize (IH (w_services w1)).
  destruct (extraction_outcomes platform cookies ns (w_services w1)). simpl in *.
  by rewrite IH.
Qed.

(** When only the [k]-th outcome is a failure, the successes are all the
    other outcomes. *)
Lemma successes_all_but_one outs : forall k e,
  outs !! k = Some (Raise e) ->
  (forall j, j <> k -> j < length outs -> exists r, outs !! j = Some (Ok r)) ->
  Ok <$> successes outs = delete k outs.
Proof.
  induction outs as [|o outs IH]; intros k e Hk Hothers; [done|].
  destruct k as [|k]; simpl in *.
  - injection Hk as ->. simpl. clear IH.
    assert (forall j, j < length outs -> exists r, outs !! j = Some (Ok r)) as Hall.
    { intros j Hj. apply (Hothers (S j)); lia. }
    clear Hothers. induction outs as [|o outs IH]; [done|].
    destruct (Hall 0) as [r Hr]; [simpl; lia|]. simpl in Hr. injection Hr as ->.
    simpl. f_equal. apply IH. intros j Hj. apply (Hall (S j)). simpl. lia.
  - destruct (Hothers 0) as [r Hr]; [lia|lia|]. simpl in Hr. injection Hr as ->.
    simpl. f_equal. apply (IH k e Hk). intros j Hj Hlt.
    apply (Hothers (S j)); lia.
Qed.

Lemma cooldowns_none platform outs :
  (forall e, Raise e ∈ outs -> is_rate_limit e = false) ->
  cooldowns platform outs = [].
Proof.
  induction outs as [|[r|e] outs IH]; intros Hg; simpl; [done| |].
  - apply IH. intros e He. apply Hg. by right.
  - rewrite (Hg e) by (by left). rewrite andb_false_r.
    apply IH. intros e' He'. apply Hg. by right.
Qed.

Lemma cooldowns_all_ok platform outs :
  (forall j, j < length outs -> exists r, outs !! j = Some (Ok r)) ->
  cooldowns platform outs = [].
Proof.
  intros Hall. apply cooldowns_none. intros e He.
  apply list_elem_of_lookup in He as [j Hj].
  destruct (Hall j) as [r Hr]; [by eapply lookup_lt_Some|congruence].
Qed.

Lemma cooldowns_one outs : forall i e,
  outs !! i = Some (Raise e) -> is_rate_limit e = true ->
  (forall j, j <> i -> j < length outs -> exists r, outs !! j = Some (Ok r)) ->
  cooldowns "instagram.com" outs = [300%Z].
Proof.
  induction outs as [|o outs IH]; intros i e Hi He Hothers; [done|].
  destruct i as [|i]; simpl in *.
  - injection Hi as ->. rewrite He. simpl. f_equal.
    apply cooldowns_all_ok. intros j Hj. apply (Hothers (S j)); lia.
  - destruct (Hothers 0) as [r Hr]; [lia|lia|]. simpl in Hr. injection Hr as ->.
    apply (IH i e Hi He). intros j Hj Hlt. apply (Hothers (S j)); lia.
Qed.

(** C3. Take URLs that all yield a non-empty user name, and let the
    extractor fail with a generic (not rate-limit) exception on the [k]-th
    of them only. Both dispatchers then end normally and add exactly the
    records of the other URLs, in order, one fewer than there are URLs;
    they leave the services in the state reached after the extractor call
    for the last URL, so the URLs after the [k]-th were processed; and
    neither sleeps. *)
Theorem dispatch_isolates_generic_failure platform cookies urls names rows w outs s' k e :
  Forall2 has_username urls names ->
  extraction_outcomes platform cookies names (w_services w) = (outs, s') ->
  outs !! k = Some (Raise e) ->
  is_rate_limit e = false ->
  (forall j, j <> k -> j < length urls -> exists r, outs !! j = Some (Ok r)) ->
  exists recs w1 w2,
    Scraper.dispatch platform cookies urls rows w = (Ok (rows ++ recs)%list, w1)
    /\ CityScraper.dispatch platform cookies urls rows w = (Ok (rows ++ recs)%list, w2)
    /\ length recs = length urls - 1
    /\ Ok <$> recs = delete k outs
    /\ w_services w1 = s' /\ w_services w2 = s'
    /\ sleeps (w_events w1) = sleeps (w_events w)
    /\ sleeps (w_events w2) = sleeps (w_events w).
Proof.
  intros Hnames Ho Hk He Hothers.
  assert (length outs = length urls) as Hlen.
  { pose proof (extraction_outcomes_length platform cookies names (w_services w)) as Hl.
    rewrite Ho in Hl. simpl in Hl. rewrite Hl. symmetry. by eapply Forall2_length. }
  rewrite <- Hlen in Hothers.
  destruct (main_dispatch_run platform cookies urls names Hnames rows w outs s' Ho)
    as (w1 & Hd1 & Hs1 & _ & Hsl1).
  destruct (city_dispatch_run platform cookies urls names Hnames rows w outs s' Ho)
    as (w2 & Hd2 & Hs2 & _ & Hsl2).
  pose proof (successes_all_but_one outs k e Hk Hothers) as Hrecs.
  exists (successes outs), w1, w2. split_and!; try done.
  - rewrite <- Hlen. rewrite <- (length_fmap Ok), Hrecs.
    rewrite length_delete by eauto. done.
  - rewrite Hsl2, cooldowns_none; [by rewrite app_nil_r|].
    intros e' He'. apply list_elem_of_lookup in He' as [j Hj].
    destruct (decide (j = k)) as [->|Hne]; [congruence|].
    destruct (Hothers j Hne) as [r Hr]; [by eapply lookup_lt_Some|congruence].
Qed.

(** C2, the two dispatchers side by side. Take Instagram URLs that all
    yield a non-empty user name, and let the extractor signal the rate
    limit on the [i]-th of them only. Both dispatchers make one extractor
    call per URL and add the records of the other URLs, none for the
    [i]-th. The dispatcher of [city_scraper.py] sleeps once, 300 seconds;
    the dispatcher of [scraper.py] does not sleep at all. *)
Theorem rate_limit_cooldown_missing_in_main cookies urls names rows w outs s' i msg :
  Forall2 has_username urls names ->
  extraction_outcomes "instagram.com" cookies names (w_services w) = (outs, s') ->
  outs !! i = Some (Raise (QueryReturnedBadRequestException msg)) ->
  (forall j, j <> i -> j < length urls -> exists r, outs !! j = Some (Ok r)) ->
  exists recs w1 w2,
    Ok <$> recs = delete i outs
    /\ CityScraper.dispatch "instagram.com" cookies urls rows w = (Ok (rows ++ recs)%list, w2)
    /\ w_services w2 = s'
    /\ sleeps (w_events w2) = (sleeps (w_events w) ++ [300%Z])%list
    /\ Scraper.dispatch "instagram.com" cookies urls rows w = (Ok (rows ++ recs)%list, w1)
    /\ w_services w1 = s'
    /\ sleeps (w_events w1) = sleeps (w_events w).
Proof.
  intros Hnames Ho Hi Hothers.
  assert (length outs = length urls) as Hlen.
  { pose proof (extraction_outcomes_length "instagram.com" cookies names (w_services w)) as Hl.
    rewrite Ho in Hl. simpl in Hl. rewrite Hl. symmetry. by eapply Forall2_length. }
  rewrite <- Hlen in Hothers.
  destruct (main_dispatch_run "instagram.com" cookies urls names Hnames rows w outs s' Ho)
    as (w1 & Hd1 & Hs1 & _ & Hsl1).
  destruct (city_dispatch_run "instagram.com" cookies urls names Hnames rows w outs s' Ho)
    as (w2 & Hd2 & Hs2 & _ & Hsl2).
  exists (successes outs), w1, w2. split_and!; try done.
  - by eapply successes_all_but_one.
  - rewrite Hsl2. f_equal. by eapply cooldowns_one.
Qed.

End Dispatch.

(** Three Instagram profiles, the extractor failing on the second. *)
Lemma dispatch_isolates_generic_failure_witness :
  exists recs w1 w2,
    @Scraper.dispatch Demo.accept_all Demo.world_of "instagram.com" None
      ["https://www.instagram.com/joespizza"; "https://www.instagram.com/broken";
       "https://www.instagram.com/cafeluna"] [] Demo.w0
    = (Ok ([] ++ recs)%list, w1)
    /\ @CityScraper.dispatch Demo.accept_all Demo.world_of "instagram.com" None
         ["https://www.instagram.com/joespizza"; "https://www.instagram.com/broken";
          "https://www.instagram.com/cafeluna"] [] Demo.w0
       = (Ok ([] ++ recs)%list, w2)
    /\ length recs = 3 - 1
    /\ Ok <$> recs =
       delete 1
         (fst (@extraction_outcomes Demo.world_of "instagram.com" None
                 ["joespizza"; "broken"; "cafeluna"] (w_services Demo.w0)))
    /\ w_services w1 =
       snd (@extraction_outcomes Demo.world_of "instagram.com" None
              ["joespizza"; "broken"; "cafeluna"] (w_services Demo.w0))
    /\ w_services w2 =
       snd (@extraction_outcomes Demo.world_of "instagram.com" None
              ["joespizza"; "broken"; "cafeluna"] (w_services Demo.w0))
    /\ sleeps (w_events w1) = sleeps (w_events Demo.w0)
    /\ sleeps (w_events w2) = sleeps (w_events Demo.w0).
Proof.
  apply (@dispatch_isolates_generic_failure Demo.accept_all Demo.world_of
           "instagram.com" None
           ["https://www.instagram.com/joespizza"; "https://www.instagram.com/broken";
            "https://www.instagram.com/cafeluna"]
           ["joespizza"; "broken"; "cafeluna"] [] Demo.w0 _ _ 1 (Exception "boom")).
  - repeat constructor; vm_compute; reflexivity.
  - apply surjective_pairing.
  - vm_compute. reflexivity.
  - reflexivity.
  - intros [|[|[|j]]] Hj Hlt; simpl in Hlt; try lia; eexists; vm_compute; reflexivity.
Defined.

(** Three Instagram profiles, the extractor signalling the rate limit on
    the second. *)
Lemma rate_limit_cooldown_missing_in_main_witness :
  exists recs w1 w2,
    Ok <$> recs =
    delete 1
      (fst (@extraction_outcomes Demo.world_of "instagram.com" None
              ["joespizza"; "limited"; "cafeluna"] (w_services Demo.w0)))
    /\ @CityScraper.dispatch Demo.accept_all Demo.world_of "instagram.com" None
         ["https://www.instagram.com/joespizza"; "https://www.instagram.com/limited";
          "https://www.instagram.com/cafeluna"] [] Demo.w0
       = (Ok ([] ++ recs)%list, w2)
    /\ w_services w2 =
       snd (@extraction_outcomes Demo.world_of "instagram.com" None
              ["joespizza"; "limited"; "cafeluna"] (w_services Demo.w0))
    /\ sleeps (w_events w2) = (sleeps (w_events Demo.w0) ++ [300%Z])%list
    /\ @Scraper.dispatch Demo.accept_all Demo.world_of "instagram.com" None
         ["https://www.instagram.com/joespizza"; "https://www.instagram.com/limited";
          "https://www.instagram.com/cafeluna"] [] Demo.w0
       = (Ok ([] ++ recs)%list, w1)
    /\ w_services w1 =
       snd (@extraction_outcomes Demo.world_of "instagram.com" None
              ["joespizza"; "limited"; "cafeluna"] (w_services Demo.w0))
    /\ sleeps (w_events w1) = sleeps (w_events Demo.w0).
Proof.
  apply (@rate_limit_cooldown_missing_in_main Demo.accept_all Demo.world_of None
           ["https://www.instagram.com/joespizza"; "https://www.instagram.com/limited";
            "https://www.instagram.com/cafeluna"]
           ["joespizza"; "limited"; "cafeluna"] [] Demo.w0 _ _ 1 "400 Bad Request").
  - repeat constructor; vm_compute; reflexivity.
  - apply surjective_pairing.
  - vm_compute. reflexivity.
  - intros [|[|[|j]]] Hj Hlt; simpl in Hlt; try lia; eexists; vm_compute; reflexivity.
Defined.

(** The console and the clock of the two dispatchers on that input. *)
Example rate_limit_events :
  w_events (snd (@CityScraper.dispatch Demo.accept_all Demo.world_of "instagram.com" None
      ["https://www.instagram.com/joespizza"; "https://www.instagram.com/limited";
       "https://www.instagram.com/cafeluna"] [] Demo.w0))
  = [EvPrint MsgRateLimit; EvSleep 300]
  /\ w_events (snd (@Scraper.dispatch Demo.accept_all Demo.world_of "instagram.com" None
      ["https://www.instagram.com/joespizza"; "https://www.instagram.com/limited";
       "https://www.instagram.com/cafeluna"] [] Demo.w0))
  = [EvPrint (MsgFailedToScrape "https://www.instagram.com/limited"
                (QueryReturnedBadRequestException "400 Bad Request"))].
Proof. split; vm_compute; reflexivity. Qed.

(** * [urlparse] by spans *)

Section UrlparseSpec.
Import PyStr Urllib Scraper.
Context `{NetlocChecks}.

Lemma eqb_take2 url : String.eqb (take 2 url) "//" = startswith "//" url.
Proof.
  destruct url as [|a [|b r]]; simpl; try done.
  all: rewrite ?(Ascii.eqb_sym "/" a), ?(Ascii.eqb_sym "/" b).
  all: destruct (Ascii.eqb a "/"); try done.
  all: destruct (Ascii.eqb b "/"); done.
Qed.

Lemma startswith2_length url : startswith "//" url = true -> 2 <= String.length url.
Proof. destruct url as [|a [|b r]]; simpl; try done; [by rewrite andb_false_r|lia]. Qed.

Lemma delim_step c n url delim k :
  n <= String.length url -> delim = n + k -> k <= String.length (drop n url) ->
  match find_from c n url with
  | Some wdelim => delim `min` wdelim
  | None => delim
  end = n + (k `min` String.length (before (is_char c) (drop n url))).
Proof.
  intros Hn -> Hk. rewrite find_from_drop by done. rewrite find_before.
  destruct (has_char c (drop n url)) eqn:Hc; simpl; [lia|].
  rewrite has_char_before by done. lia.
Qed.

Lemma splitnetloc_spec url :
  2 <= String.length url ->
  _splitnetloc url 2 = (before is_delim (drop 2 url), from is_delim (drop 2 url)).
Proof.
  intros Hlen. unfold _splitnetloc. cbn [fold_left].
  pose proof (length_drop 2 url) as Hrest.
  set (rest := drop 2 url) in *.
  rewrite (delim_step "/" 2 url _ (String.length rest)) by (fold rest; lia).
  fold rest.
  rewrite (delim_step "?" 2 url _ _ Hlen eq_refl) by (fold rest; lia).
  fold rest.
  rewrite (delim_step "#" 2 url _ _ Hlen eq_refl) by (fold rest; lia).
  fold rest.
  assert (((String.length rest `min` String.length (before (is_char "/") rest))
            `min` String.length (before (is_char "?") rest))
            `min` String.length (before (is_char "#") rest)
          = String.length (before is_delim rest)) as ->.
  { pose proof (length_before_le (is_char "/") rest).
    rewrite (before_ext is_delim
               (fun a => (is_char "/" a || is_char "?" a) || is_char "#" a)) by done.
    rewrite !length_before_or. lia. }
  unfold slice.
  replace (2 + String.length (before is_delim rest) - 2)
    with (String.length (before is_delim rest)) by lia.
  fold rest. rewrite take_length_before.
  rewrite <- drop_drop. fold rest. by rewrite drop_length_before.
Qed.

(** What [urlparse] returns, by spans. *)
Lemma urlparse_parts url :
  match urlparse url with
  | Raise e => netloc_error (url_parts url).1.2 = Some e
  | Ok p =>
      netloc_error (url_parts url).1.2 = None
      /\ scheme p = (url_parts url).1.1
      /\ netloc p = (url_parts url).1.2
      /\ path p = strip_params (url_parts url).1.1 (before ends_path (url_parts url).2)
  end.
Proof.
  unfold urlparse, urlsplit, url_parts.
  fold (sanitize url). fold (split_scheme (sanitize url)).
  destruct (split_scheme (sanitize url)) as [sch r].
  rewrite eqb_take2. unfold split_netloc.
  destruct (startswith "//" r) eqn:Hs.
  - rewrite splitnetloc_spec by (by apply startswith2_length).
    set (nl := before is_delim (drop 2 r)). set (rest := from is_delim (drop 2 r)).
    unfold netloc_error. simpl fst. simpl snd.
    destruct ((has_char "[" nl && negb (has_char "]" nl))
              || (has_char "]" nl && negb (has_char "[" nl))); [done|].
    destruct (if has_char "[" nl && has_char "]" nl
              then check_bracketed_netloc nl else None) as [msg|]; [done|].
    pose proof (split1_fst "#" rest) as H1.
    destruct (if has_char "#" rest then split1 "#" rest else (rest, "")) as [u1 f].
    pose proof (split1_fst "?" u1) as H2.
    destruct (if has_char "?" u1 then split1 "?" u1 else (u1, "")) as [u2 q].
    simpl in H1, H2. subst u1 u2.
    destruct (_checknetloc nl); [|done]. simpl.
    rewrite before_before, (before_ext _ ends_path) by done.
    unfold strip_params.
    destruct (bool_decide (sch ∈ uses_params) && has_char ";" (before ends_path rest));
      [destruct (_splitparams _) as [a b]|]; simpl; done.
  - simpl fst. simpl snd.
    pose proof (split1_fst "#" r) as H1.
    destruct (if has_char "#" r then split1 "#" r else (r, "")) as [u1 f].
    pose proof (split1_fst "?" u1) as H2.
    destruct (if has_char "?" u1 then split1 "?" u1 else (u1, "")) as [u2 q].
    simpl in H1, H2. subst u1 u2.
    simpl. rewrite before_before, (before_ext _ ends_path) by done.
    unfold strip_params.
    destruct (bool_decide (sch ∈ uses_params) && has_char ";" (before ends_path r));
      [destruct (_splitparams _) as [a b]|]; simpl; done.
Qed.

(** The canonical form, by spans. *)
Lemma clean_parts url :
  clean url =
  match netloc_error (url_parts url).1.2 with
  | Some e => Raise e
  | None =>
      Ok (rstrip "/" ((url_parts url).1.1 +:+ "://" +:+ (url_parts url).1.2 +:+
                      strip_params (url_parts url).1.1
                        (before ends_path (url_parts url).2)))
  end.
Proof.
  unfold clean. pose proof (urlparse_parts url) as Hp.
  destruct (urlparse url) as [p|e].
  - destruct Hp as (-> & <- & <- & <-). done.
  - by rewrite Hp.
Qed.

End UrlparseSpec.

(** * Appending to a URL *)

Section UrlAppend.
Import PyStr Urllib Scraper.
Context `{NetlocChecks}.

Lemma is_delim_cases c : is_delim c = true -> c = "/"%char \/ c = "?"%char \/ c = "#"%char.
Proof.
  unfold is_delim. intros [[Hc|Hc]%orb_prop|Hc]%orb_prop;
    apply Ascii.eqb_eq in Hc; auto.
Qed.

Lemma ends_path_delim c : ends_path c = true -> is_delim c = true.
Proof.
  unfold ends_path, is_delim. intros [-> | ->]%orb_prop; [by rewrite orb_true_r|].
  apply orb_true_r.
Qed.

Lemma sanitize_app_delim u c x :
  is_delim c = true ->
  sanitize (u +:+ String c x) =
  sanitize u +:+ String c (fold_left (fun u b => remove_char b u)
                             UNSAFE_URL_BYTES_TO_REMOVE x).
Proof.
  intros Hc. unfold sanitize. rewrite lstrip_app_miss.
  - cbn [fold_left UNSAFE_URL_BYTES_TO_REMOVE]. rewrite !remove_char_app.
    f_equal. by destruct (is_delim_cases c Hc) as [-> | [-> | ->]].
  - by destruct (is_delim_cases c Hc) as [-> | [-> | ->]].
Qed.

Lemma split_scheme_alt u :
  split_scheme u =
  match find ":" u with
  | Some (S i') =>
      if match u with
         | String c0 _ => isascii c0 && isalpha c0
         | EmptyString => false
         end && all in_scheme_chars (take (S i') u)
      then (lower (take (S i') u), drop (S (S i')) u)
      else ("", u)
  | _ => ("", u)
  end.
Proof.
  unfold split_scheme. destruct u as [|c0 u']; [done|].
  by destruct (find ":" (String c0 u')) as [[|i']|].
Qed.

Lemma split_scheme_app u c x :
  is_delim c = true ->
  split_scheme (u +:+ String c x) =
  ((split_scheme u).1, (split_scheme u).2 +:+ String c x).
Proof.
  intros Hc.
  assert (in_scheme_chars c = false /\ Ascii.eqb c ":" = false /\ isalpha c = false)
    as (Hsc & Hcolon & Halpha) by (by destruct (is_delim_cases c Hc) as [-> | [-> | ->]]).
  rewrite !split_scheme_alt, find_app.
  destruct (find ":" u) as [[|i']|] eqn:Hf.
  - done.
  - apply find_lt in Hf. rewrite take_app_l, drop_app_l by lia.
    destruct u as [|c0 u']; [simpl in Hf; lia|]. simpl append at 1.
    by destruct (isascii c0 && isalpha c0 && all in_scheme_chars (take (S i') (String c0 u'))).
  - destruct (find ":" (String c x)) as [j|] eqn:Hj; [|done].
    simpl in Hj. rewrite Hcolon in Hj.
    destruct (find ":" x) as [j'|]; [|done]. injection Hj as <-. simpl fmap.
    replace (String.length u + S j') with (S (String.length u + j')) by lia.
    rewrite (all_take_past in_scheme_chars u c x) by (done || lia).
    by rewrite andb_false_r.
Qed.

Lemma split_netloc_app_path r c x :
  ends_path c = true ->
  split_netloc (r +:+ String c x) =
  ((split_netloc r).1, (split_netloc r).2 +:+ String c x).
Proof.
  intros Hc. unfold split_netloc.
  assert (startswith "//" (r +:+ String c x) = startswith "//" r) as ->.
  { assert (c = "?"%char \/ c = "#"%char) as [-> | ->].
    { unfold ends_path in Hc. apply orb_prop in Hc as [Hc|Hc];
        apply Ascii.eqb_eq in Hc; auto. }
    all: destruct r as [|a [|b r']]; simpl; rewrite ?andb_false_r; done. }
  destruct (startswith "//" r) eqn:Hs; [|done].
  apply startswith2_length in Hs. rewrite drop_app_l by done. simpl.
  rewrite before_app_hit, from_app_hit by (by apply ends_path_delim). done.
Qed.

Lemma url_parts_app_path u c x :
  ends_path c = true ->
  url_parts (u +:+ String c x) =
  ((url_parts u).1,
   (url_parts u).2 +:+ String c (fold_left (fun u b => remove_char b u)
                                   UNSAFE_URL_BYTES_TO_REMOVE x)).
Proof.
  intros Hc. pose proof (ends_path_delim c Hc) as Hd.
  unfold url_parts. rewrite sanitize_app_delim, split_scheme_app by done.
  destruct (split_scheme (sanitize u)) as [sch r]. simpl fst. simpl snd.
  rewrite split_netloc_app_path by done.
  by destruct (split_netloc r) as [nl rest].
Qed.

(** Whatever follows the first [?] or [#] of a URL is dropped. *)
Lemma clean_app_path u c x :
  ends_path c = true -> clean (u +:+ String c x) = clean u.
Proof.
  intros Hc. rewrite !clean_parts, url_parts_app_path by done.
  simpl fst. simpl snd. by rewrite before_app_hit.
Qed.

End UrlAppend.

(** * Shape of the canonical form *)

Section CleanShape.
Import PyStr Urllib Scraper.
Context `{NetlocChecks}.

Lemma in_scheme_chars_lower a :
  in_scheme_chars a = true -> in_scheme_chars (lower_char a) = true.
Proof. destruct a as [[] [] [] [] [] [] [] []]; vm_compute; done. Qed.

Lemma in_scheme_chars_not_delim a :
  in_scheme_chars a = true -> is_delim a = false.
Proof. destruct a as [[] [] [] [] [] [] [] []]; vm_compute; done. Qed.

Lemma not_delim_not_ends_path a : is_delim a = false -> ends_path a = false.
Proof.
  unfold is_delim, ends_path. intros Hd.
  apply orb_false_elim in Hd as [[_ H1]%orb_false_elim H2]. by rewrite H1, H2.
Qed.

Lemma all_lower_scheme s :
  all in_scheme_chars s = true -> all in_scheme_chars (lower s) = true.
Proof.
  induction s as [|a s IH]; simpl; [done|].
  intros [Ha Hs]%andb_prop. rewrite in_scheme_chars_lower by done. by apply IH.
Qed.

Lemma split_scheme_chars u : all in_scheme_chars (split_scheme u).1 = true.
Proof.
  rewrite split_scheme_alt. destruct (find ":" u) as [[|i']|]; try done.
  destruct (_ && all in_scheme_chars (take (S i') u)) eqn:Hc; [|done].
  apply andb_prop in Hc as [_ Hc]. simpl fst. by apply all_lower_scheme.
Qed.

Lemma split_netloc_no_delim r :
  all (fun a => negb (is_delim a)) (split_netloc r).1 = true.
Proof.
  unfold split_netloc. destruct (startswith "//" r); [|done]. apply all_before.
Qed.

Lemma splitparams_fst_take p : exists n, (_splitparams p).1 = take n p.
Proof.
  unfold _splitparams.
  assert (exists n, p = take n p) as Hid.
  { exists (String.length p). clear. induction p as [|a p IH]; simpl; [done|].
    by rewrite <- IH. }
  destruct (has_char "/" p).
  - destruct (rfind "/" p) as [r|]; [|done].
    destruct (find_from ";" r p) as [i|]; [by exists i|done].
  - destruct (find ";" p) as [i|]; [by exists i|by eexists].
Qed.

Lemma all_strip_params P sch p : all P p = true -> all P (strip_params sch p) = true.
Proof.
  intros Hp. unfold strip_params.
  destruct (bool_decide (sch ∈ uses_params) && has_char ";" p); [|done].
  destruct (splitparams_fst_take p) as [n ->]. by apply all_take.
Qed.

Lemma url_parts_scheme_chars url : all in_scheme_chars (url_parts url).1.1 = true.
Proof.
  unfold url_parts. pose proof (split_scheme_chars (sanitize url)) as Hs.
  destruct (split_scheme (sanitize url)) as [sch r].
  by destruct (split_netloc r) as [nl rest].
Qed.

Lemma url_parts_netloc_no_delim url :
  all (fun a => negb (is_delim a)) (url_parts url).1.2 = true.
Proof.
  unfold url_parts. destruct (split_scheme (sanitize url)) as [sch r].
  pose proof (split_netloc_no_delim r) as Hn.
  by destruct (split_netloc r) as [nl rest].
Qed.

(** The canonical form holds neither [?] nor [#] and does not end in [/]. *)
Lemma clean_shape url c :
  clean url = Ok c ->
  has_char "?" c = false /\ has_char "#" c = false /\ ends_with "/" c = false.
Proof.
  rewrite clean_parts. destruct (netloc_error _); [done|]. intros [= <-].
  assert (all (fun a => negb (ends_path a))
            (rstrip "/" ((url_parts url).1.1 +:+ "://" +:+ (url_parts url).1.2 +:+
                         strip_params (url_parts url).1.1
                           (before ends_path (url_parts url).2))) = true) as Hall.
  { apply all_rstrip. rewrite !all_app.
    apply andb_true_intro; split; [|apply andb_true_intro; split;
                                     [done|apply andb_true_intro; split]].
    - eapply all_impl; [|apply url_parts_scheme_chars].
      intros a Ha. cbv beta.
      rewrite not_delim_not_ends_path; [done|by apply in_scheme_chars_not_delim].
    - eapply all_impl; [|apply url_parts_netloc_no_delim].
      intros a Ha. cbv beta in *.
      rewrite not_delim_not_ends_path; [done|]. by destruct (is_delim a).
    - apply all_strip_params, all_before. }
  split_and!.
  - apply has_char_all. eapply all_impl; [|exact Hall].
    intros a Ha. unfold ends_path in Ha. by destruct (Ascii.eqb a "?").
  - apply has_char_all. eapply all_impl; [|exact Hall].
    intros a Ha. unfold ends_path in Ha.
    destruct (Ascii.eqb a "#"); [|done]. by rewrite orb_true_r in Ha.
  - apply rstrip_ends_with.
Qed.

End CleanShape.

(** * A trailing slash *)

Section TrailingSlash.
Import PyStr Urllib Scraper.
Context `{NetlocChecks}.

Lemma all_sanitize P url : all P url = true -> all P (sanitize url) = true.
Proof.
  intros Hu. unfold sanitize. cbn [fold_left UNSAFE_URL_BYTES_TO_REMOVE].
  by do 3 apply all_remove_char; apply all_lstrip.
Qed.

Lemma all_split_scheme_rest P u : all P u = true -> all P (split_scheme u).2 = true.
Proof.
  intros Hu. rewrite split_scheme_alt. destruct (find ":" u) as [[|i']|]; try done.
  destruct (_ && all in_scheme_chars (take (S i') u)); [|done]. by apply all_drop.
Qed.

Lemma all_split_netloc P r :
  all P r = true ->
  all P (split_netloc r).1 = true /\ all P (split_netloc r).2 = true.
Proof.
  intros Hr. unfold split_netloc. destruct (startswith "//" r); [|done].
  split; [apply all_before_sub|apply all_from]; by apply all_drop.
Qed.

(** A property of all the characters of a URL holds of its netloc and of
    what follows it. *)
Lemma all_url_parts P url :
  all P url = true ->
  all P (url_parts url).1.2 = true /\ all P (url_parts url).2 = true.
Proof.
  intros Hu. unfold url_parts.
  pose proof (all_split_scheme_rest P _ (all_sanitize P url Hu)) as Hr.
  destruct (split_scheme (sanitize url)) as [sch r]. simpl in Hr.
  pose proof (all_split_netloc P r Hr) as Hn.
  by destruct (split_netloc r) as [nl rest].
Qed.

Lemma split_netloc_app_slash r :
  split_netloc (r +:+ "/") =
  if String.eqb r "/" then ("", "")
  else ((split_netloc r).1, (split_netloc r).2 +:+ "/").
Proof.
  unfold split_netloc. destruct r as [|a [|b r']].
  - done.
  - destruct (Ascii.eqb_spec a "/") as [->|Hne]; [done|].
    assert (Ascii.eqb "/" a = false) as Ha by (apply Ascii.eqb_neq; congruence).
    assert (String.eqb (String a "") "/" = false) as ->
      by (apply String.eqb_neq; congruence).
    cbn [String.append startswith]. rewrite Ha. done.
  - assert (String.eqb (String a (String b r')) "/" = false) as ->.
    { by apply String.eqb_neq. }
    change (startswith "//" (String a (String b r') +:+ "/"))
      with (startswith "//" (String a (String b r'))).
    destruct (startswith "//" (String a (String b r'))); [|done].
    change (drop 2 (String a (String b r') +:+ "/")) with (r' +:+ "/").
    change (drop 2 (String a (String b r'))) with r'.
    by rewrite before_app_hit, from_app_hit.
Qed.

Lemma strip_params_no_semicolon sch p : has_char ";" p = false -> strip_params sch p = p.
Proof. intros Hp. unfold strip_params. by rewrite Hp, andb_false_r. Qed.

(** A slash added at the end of a URL without [;] does not change its
    canonical form. *)
Lemma clean_app_slash u : has_char ";" u = false -> clean (u +:+ "/") = clean u.
Proof.
  intros Hsemi. apply has_char_all in Hsemi.
  destruct (all_url_parts _ u Hsemi) as [_ Hrest]. apply has_char_all in Hrest.
  rewrite !clean_parts. revert Hrest. unfold url_parts.
  rewrite sanitize_app_delim, split_scheme_app by done.
  destruct (split_scheme (sanitize u)) as [sch r]. simpl fst. simpl snd.
  cbn [fold_left UNSAFE_URL_BYTES_TO_REMOVE remove_char].
  rewrite split_netloc_app_slash.
  destruct (String.eqb r "/") eqn:Hr.
  - apply String.eqb_eq in Hr as ->. intros _. simpl.
    rewrite !strip_params_no_semicolon by done.
    change (String ":" (String "/" (String "/" "/"))) with ("://" +:+ "/").
    rewrite <- append_assoc'. by rewrite rstrip_app_char.
  - destruct (split_netloc r) as [nl rest]. simpl fst. simpl snd. intros Hrest.
    destruct (netloc_error nl); [done|]. f_equal.
    rewrite before_app_miss.
    destruct (all (fun a => negb (ends_path a)) rest) eqn:Hall; [|done].
    rewrite (before_all ends_path rest Hall). simpl before.
    rewrite !strip_params_no_semicolon;
      [|done|by rewrite has_char_app, Hrest].
    rewrite <- !append_assoc'. by rewrite rstrip_app_char.
Qed.

End TrailingSlash.

(** * The first path segment *)

Section FirstSegment.
Import PyStr Urllib Scraper.
Context `{NetlocChecks}.

Lemma split_head c p : exists t, split c p = before (is_char c) p :: t.
Proof.
  unfold is_char. induction p as [|a p [t IH]]; simpl; [by exists []|].
  destruct (Ascii.eqb a c); [by eexists|]. rewrite IH. by eexists.
Qed.

(** The first non-empty piece of [p.split("/")] is what stands between the
    leading slashes of [p] and the next slash. *)
Lemma first_segment_spec p :
  match List.filter truthy (split "/" p) with
  | x :: _ => x
  | [] => ""
  end = before (is_char "/") (lstrip (is_char "/") p).
Proof.
  unfold is_char. induction p as [|a p IH]; simpl; [done|].
  destruct (Ascii.eqb a "/") eqn:Ha; simpl; [exact IH|].
  destruct (split_head "/" p) as [t ->]. simpl. by rewrite Ha.
Qed.

Lemma lstrip_replicate c p :
  exists k, p = replicate_char k c +:+ lstrip (is_char c) p.
Proof.
  unfold is_char. induction p as [|a p [k IH]]; simpl; [by exists 0|].
  destruct (Ascii.eqb_spec a c) as [->|Hne].
  - exists (S k). simpl. by rewrite <- IH.
  - by exists 0.
Qed.

Lemma lstrip_head P p :
  lstrip P p = "" \/ exists a x, lstrip P p = String a x /\ P a = false.
Proof.
  induction p as [|a p IH]; simpl; [by left|].
  destruct (P a) eqn:Ha; [done|]. right. eauto.
Qed.

Lemma rstrip_replicate c s : exists k, s = rstrip c s +:+ replicate_char k c.
Proof.
  induction s as [|a s [k IH]]; simpl; [by exists 0|].
  destruct (rstrip c s) as [|b r] eqn:Hr.
  - destruct (Ascii.eqb_spec a c) as [->|Hne].
    + exists (S k). simpl. simpl in IH. by rewrite <- IH.
    + exists k. simpl. simpl in IH. by rewrite <- IH.
  - exists k. simpl. simpl in IH. by rewrite <- IH.
Qed.

Lemma str_isascii_all s : str_isascii s = all isascii s.
Proof. induction s as [|a s IH]; simpl; [done|by rewrite IH]. Qed.

(** ASCII URLs without square brackets always parse. *)
Lemma netloc_error_plain url :
  str_isascii url = true -> has_char "[" url = false -> has_char "]" url = false ->
  netloc_error (url_parts url).1.2 = None.
Proof.
  intros Hascii Hl Hr.
  rewrite str_isascii_all in Hascii.
  apply has_char_all in Hl. apply has_char_all in Hr.
  destruct (all_url_parts _ url Hascii) as [Ha _].
  destruct (all_url_parts _ url Hl) as [Hl' _].
  destruct (all_url_parts _ url Hr) as [Hr' _].
  apply has_char_all in Hl'. apply has_char_all in Hr'.
  unfold netloc_error, _checknetloc. rewrite Hl', Hr', str_isascii_all, Ha. simpl.
  by rewrite orb_true_r.
Qed.

End FirstSegment.

(** * Cleaning a canonical form again *)

Section Idempotence.
Import PyStr Urllib Scraper.
Context `{NetlocChecks}.

Lemma rstrip_cons c a s :
  rstrip c (String a s) =
  match rstrip c s with
  | EmptyString => if Ascii.eqb a c then EmptyString else String a EmptyString
  | r => String a r
  end.
Proof. reflexivity. Qed.

Lemma rstrip_app_keep c A B :
  A <> "" -> ends_with c A = false -> rstrip c (A +:+ B) = A +:+ rstrip c B.
Proof.
  induction A as [|a A IH]; [done|]. intros _ He.
  destruct A as [|b A].
  - simpl in He. change (String a "" +:+ B) with (String a B).
    rewrite rstrip_cons, He. by destruct (rstrip c B).
  - change (ends_with c (String a (String b A))) with (ends_with c (String b A)) in He.
    specialize (IH ltac:(done) He).
    change (String a (String b A) +:+ B) with (String a (String b A +:+ B)).
    rewrite rstrip_cons, IH. done.
Qed.

Lemma rstrip_fix c s : ends_with c s = false -> rstrip c s = s.
Proof.
  induction s as [|a s IH]; [done|]. intros He.
  destruct s as [|b s].
  - simpl in *. by rewrite He.
  - change (ends_with c (String a (String b s))) with (ends_with c (String b s)) in He.
    rewrite rstrip_cons. by rewrite (IH He).
Qed.

Lemma ends_with_app_char c A a : ends_with c (A +:+ String a "") = Ascii.eqb a c.
Proof.
  induction A as [|b A IH]; [done|].
  change (String b A +:+ String a "") with (String b (A +:+ String a "")).
  destruct (A +:+ String a "") as [|x y] eqn:HA.
  - by destruct A.
  - exact IH.
Qed.

Lemma take_app_exact s t : take (String.length s) (s +:+ t) = s.
Proof.
  induction s as [|a s IH]; simpl; [by destruct t|]. by rewrite IH.
Qed.

Lemma drop_app_exact s t : drop (String.length s) (s +:+ t) = t.
Proof. induction s as [|a s IH]; simpl; [done|exact IH]. Qed.

Lemma remove_char_absent d s : has_char d s = false -> remove_char d s = s.
Proof.
  intros Hs%has_char_all. induction s as [|a s IH]; simpl in *; [done|].
  apply andb_prop in Hs as [Ha Hs]. apply negb_true_iff in Ha.
  rewrite Ha. by rewrite IH.
Qed.

Lemma remove_char_gone d s : has_char d (remove_char d s) = false.
Proof.
  apply has_char_all. induction s as [|a s IH]; simpl; [done|].
  destruct (Ascii.eqb a d) eqn:Ha; simpl; [done|]. by rewrite Ha.
Qed.

Lemma has_char_remove_other c d s :
  has_char c s = false -> has_char c (remove_char d s) = false.
Proof. rewrite !has_char_all. apply all_remove_char. Qed.

(** A sanitized URL holds no tab, CR or LF. *)
Lemma sanitize_no_unsafe url :
  has_char "009" (sanitize url) = false
  /\ has_char "013" (sanitize url) = false
  /\ has_char "010" (sanitize url) = false.
Proof.
  unfold sanitize. cbn [fold_left UNSAFE_URL_BYTES_TO_REMOVE]. split_and!.
  - do 2 apply has_char_remove_other. apply remove_char_gone.
  - apply has_char_remove_other. apply remove_char_gone.
  - apply remove_char_gone.
Qed.

Lemma sanitize_fix c :
  starts_alpha c = true ->
  has_char "009" c = false -> has_char "013" c = false -> has_char "010" c = false ->
  sanitize c = c.
Proof.
  intros Ha Ht Hr Hn. unfold sanitize.
  assert (lstrip is_c0_control_or_space c = c) as ->.
  { destruct c as [|a c]; [done|]. simpl in *.
    assert (is_c0_control_or_space a = false) as ->; [|done].
    revert Ha. clear. destruct a as [[] [] [] [] [] [] [] []]; vm_compute; done. }
  cbn [fold_left UNSAFE_URL_BYTES_TO_REMOVE].
  by rewrite (remove_char_absent "009"), (remove_char_absent "013"),
    (remove_char_absent "010").
Qed.

Lemma lower_char_idem a : lower_char (lower_char a) = lower_char a.
Proof. destruct a as [[] [] [] [] [] [] [] []]; vm_compute; done. Qed.

Lemma lower_idem s : lower (lower s) = lower s.
Proof. induction s as [|a s IH]; simpl; [done|]. by rewrite lower_char_idem, IH. Qed.

Lemma alpha_lower a :
  isascii a && isalpha a = true ->
  isascii (lower_char a) && isalpha (lower_char a) = true.
Proof. destruct a as [[] [] [] [] [] [] [] []]; vm_compute; done. Qed.

Lemma scheme_char_not_colon a : in_scheme_chars a = true -> Ascii.eqb a ":" = false.
Proof. destruct a as [[] [] [] [] [] [] [] []]; vm_compute; done. Qed.

Lemma scheme_char_safe a :
  in_scheme_chars a = true ->
  Ascii.eqb a "009" = false /\ Ascii.eqb a "013" = false /\ Ascii.eqb a "010" = false.
Proof. destruct a as [[] [] [] [] [] [] [] []]; vm_compute; done. Qed.

(** The scheme found by [urlsplit]: empty, or lower-case scheme characters
    after a first letter. *)
Lemma split_scheme_props u :
  (split_scheme u).1 = ""
  \/ (starts_alpha (split_scheme u).1 = true
      /\ lower (split_scheme u).1 = (split_scheme u).1
      /\ all in_scheme_chars (split_scheme u).1 = true).
Proof.
  pose proof (split_scheme_chars u) as Hall. revert Hall.
  rewrite split_scheme_alt. destruct (find ":" u) as [[|i']|]; try (by left).
  destruct u as [|c0 u']; [by left|].
  destruct (isascii c0 && isalpha c0) eqn:Hc0; [|by left].
  destruct (all in_scheme_chars (take (S i') (String c0 u'))); [|by left].
  simpl. intros Hall. right. split_and!.
  - by apply alpha_lower.
  - by rewrite lower_char_idem, lower_idem.
  - done.
Qed.

Lemma find_absent c s : has_char c s = false -> find c s = None.
Proof. unfold has_char. by destruct (find c s). Qed.

(** [urlsplit] finds the scheme [sch] again in [sch:Z]. *)
Lemma split_scheme_of_scheme sch Z :
  starts_alpha sch = true -> lower sch = sch -> all in_scheme_chars sch = true ->
  split_scheme (sch +:+ String ":" Z) = (sch, Z).
Proof.
  intros Ha Hl Hs. rewrite split_scheme_alt, find_app.
  assert (find ":" sch = None) as ->.
  { apply find_absent, has_char_all. eapply all_impl; [|exact Hs].
    intros a Hsa. cbv beta. by rewrite scheme_char_not_colon. }
  change (find ":" (String ":" Z)) with (Some 0). simpl fmap.
  destruct sch as [|c0 sch']; [done|].
  replace (String.length (String c0 sch') + 0) with (S (String.length sch'))
    by (simpl; lia).
  change (S (String.length sch')) with (String.length (String c0 sch')).
  rewrite take_app_exact.
  change (String c0 sch' +:+ String ":" Z) with (String c0 (sch' +:+ String ":" Z)) at 1.
  cbv iota. change (isascii c0 && isalpha c0) with (starts_alpha (String c0 sch')).
  rewrite Ha, Hs. cbn [andb]. rewrite Hl. f_equal.
  replace (S (String.length (String c0 sch')))
    with (String.length (String c0 sch') + 1) by lia.
  rewrite <- drop_drop, drop_app_exact. done.
Qed.

Lemma has_char_cons x a s :
  has_char x (String a s) = Ascii.eqb a x || has_char x s.
Proof.
  unfold has_char. cbn [find]. destruct (Ascii.eqb a x); [done|].
  by destruct (find x s).
Qed.

Lemma url_parts_of_scheme sch Z :
  starts_alpha sch = true -> lower sch = sch -> all in_scheme_chars sch = true ->
  has_char "009" (sch +:+ String ":" Z) = false ->
  has_char "013" (sch +:+ String ":" Z) = false ->
  has_char "010" (sch +:+ String ":" Z) = false ->
  url_parts (sch +:+ String ":" Z) = (sch, (split_netloc Z).1, (split_netloc Z).2).
Proof.
  intros Ha Hl Hs Ht Hr Hn. unfold url_parts.
  rewrite sanitize_fix; [|by destruct sch|done..].
  rewrite split_scheme_of_scheme by done. by destruct (split_netloc Z).
Qed.

(** A string [sch:Z] of the shape the cleaning step produces is its own
    canonical form. *)
Lemma clean_of_canonical sch Z :
  starts_alpha sch = true -> lower sch = sch -> all in_scheme_chars sch = true ->
  (Z = "" \/ exists R, Z = String "/" (String "/" R) /\ R <> "" /\ ends_with "/" R = false) ->
  str_isascii (sch +:+ String ":" Z) = true ->
  (forall x, x ∈ ["009"; "013"; "010"; "?"; "#"; ";"; "["; "]"]%char ->
             has_char x (sch +:+ String ":" Z) = false) ->
  clean (sch +:+ String ":" Z) = Ok (sch +:+ String ":" Z).
Proof.
  intros Ha Hl Hs HZ Hascii Hno.
  assert (forall x, x ∈ ["009"; "013"; "010"; "?"; "#"; ";"; "["; "]"]%char ->
                    has_char x Z = false) as HnoZ.
  { intros x Hx. specialize (Hno x Hx). rewrite has_char_app, has_char_cons in Hno.
    by apply orb_false_elim in Hno as [_ [_ Hno]%orb_false_elim]. }
  rewrite clean_parts.
  rewrite netloc_error_plain; [|done|apply Hno; set_solver..].
  rewrite url_parts_of_scheme; [|done|done|done|apply Hno; set_solver..].
  simpl fst. simpl snd. f_equal.
  assert (has_char "?" Z = false) as Hq by (apply HnoZ; set_solver).
  assert (has_char "#" Z = false) as Hf by (apply HnoZ; set_solver).
  assert (has_char ";" Z = false) as Hsemi by (apply HnoZ; set_solver).
  assert (all (fun a => negb (ends_path a)) Z = true) as Hpath.
  { apply has_char_all in Hq, Hf. clear -Hq Hf.
    induction Z as [|a Z IH]; simpl in *; [done|].
    apply andb_prop in Hq as [Hq1 Hq2]. apply andb_prop in Hf as [Hf1 Hf2].
    rewrite IH by done. unfold ends_path.
    apply negb_true_iff in Hq1, Hf1. by rewrite Hq1, Hf1. }
  destruct (all_split_netloc _ Z Hpath) as [_ Hrest].
  rewrite (before_all ends_path _ Hrest).
  apply has_char_all in Hsemi. destruct (all_split_netloc _ Z Hsemi) as [_ Hrs].
  apply has_char_all in Hrs. rewrite strip_params_no_semicolon by done.
  assert (forall Y, sch +:+ "://" +:+ Y = (sch +:+ ":") +:+ String "/" (String "/" Y))
    as Hsplit by (intros Y; by rewrite append_assoc').
  assert (forall Y, rstrip "/" (sch +:+ "://" +:+ Y)
                    = (sch +:+ ":") +:+ rstrip "/" (String "/" (String "/" Y))) as Hrs'.
  { intros Y. rewrite Hsplit. apply rstrip_app_keep; [by destruct sch|].
    by rewrite ends_with_app_char. }
  rewrite Hrs'. rewrite append_assoc'. f_equal.
  change (":" +:+ ?r) with (String ":" r). f_equal.
  destruct HZ as [->|(R & -> & HR & Hend)]; [done|].
  unfold split_netloc. change (startswith "//" (String "/" (String "/" R))) with true.
  cbv iota. change (drop 2 (String "/" (String "/" R))) with R.
  simpl fst. simpl snd. rewrite before_from.
  apply rstrip_fix. destruct R as [|a R]; [done|]. exact Hend.
Qed.

Lemma all_url_parts_sanitized P url :
  all P (sanitize url) = true ->
  all P (url_parts url).1.2 = true /\ all P (url_parts url).2 = true.
Proof.
  intros Hu. unfold url_parts.
  pose proof (all_split_scheme_rest P _ Hu) as Hr.
  destruct (split_scheme (sanitize url)) as [sch r]. simpl in Hr.
  pose proof (all_split_netloc P r Hr) as Hn.
  by destruct (split_netloc r) as [nl rest].
Qed.

(** A property of the characters of the sanitized URL, of the scheme
    characters, of [:] and of [/] holds of the canonical form. *)
Lemma clean_all P url c :
  clean url = Ok c ->
  all P (sanitize url) = true ->
  (forall a, in_scheme_chars a = true -> P a = true) ->
  P ":"%char = true -> P "/"%char = true ->
  all P c = true.
Proof.
  rewrite clean_parts. destruct (netloc_error _); [done|]. intros [= <-] Hu Hs Hc Hsl.
  destruct (all_url_parts_sanitized P url Hu) as [Hnl Hrest].
  assert (forall Y, all P Y = true -> all P ("://" +:+ Y) = true) as Hpre.
  { intros Y HY. cbn [String.append all]. by rewrite Hc, Hsl, HY. }
  apply all_rstrip. rewrite all_app. apply andb_true_intro; split.
  - eapply all_impl; [|apply url_parts_scheme_chars]. done.
  - apply Hpre. rewrite all_app. apply andb_true_intro; split; [done|].
    by apply all_strip_params, all_before_sub.
Qed.

Lemma clean_no_unsafe url c x :
  clean url = Ok c -> x ∈ ["009"; "013"; "010"]%char -> has_char x c = false.
Proof.
  intros Hc Hx. apply has_char_all.
  destruct (sanitize_no_unsafe url) as (Ht & Hr & Hn).
  eapply clean_all; [exact Hc|..].
  - apply has_char_all. set_solver.
  - intros a Ha. destruct (scheme_char_safe a Ha) as (H1 & H2 & H3).
    apply negb_true_iff. set_solver.
  - set_solver.
  - set_solver.
Qed.

Lemma url_parts_scheme url : (url_parts url).1.1 = (split_scheme (sanitize url)).1.
Proof.
  unfold url_parts. destruct (split_scheme (sanitize url)) as [sch r].
  by destruct (split_netloc r).
Qed.

(** Cleaning is idempotent on a canonical form that starts with a letter,
    is ASCII and holds none of [;], [[] and []]. *)
Lemma clean_idempotent url c :
  clean url = Ok c ->
  starts_alpha c = true -> str_isascii c = true ->
  has_char ";" c = false -> has_char "[" c = false -> has_char "]" c = false ->
  clean c = Ok c.
Proof.
  intros Hc Ha Hascii Hsemi Hl Hr.
  destruct (clean_shape url c Hc) as (Hq & Hf & _).
  pose proof (fun x => clean_no_unsafe url c x Hc) as Hunsafe.
  rewrite clean_parts in Hc. destruct (netloc_error _); [done|]. injection Hc as Hc.
  pose proof (split_scheme_props (sanitize url)) as Hsch.
  rewrite <- url_parts_scheme in Hsch.
  set (sch := (url_parts url).1.1) in *.
  set (X := (url_parts url).1.2 +:+ strip_params sch (before ends_path (url_parts url).2)) in *.
  destruct Hsch as [Hsch|(Hsa & Hsl & Hss)].
  - exfalso. rewrite Hsch in Hc.
    change (rstrip "/" (String ":" (String "/" (String "/" X))) = c) in Hc.
    rewrite rstrip_cons in Hc. rewrite <- Hc in Ha. by destruct (rstrip "/" _).
  - assert (c = sch +:+ String ":" (rstrip "/" (String "/" (String "/" X)))) as Hshape.
    { assert (sch +:+ String ":" (String "/" (String "/" X))
              = (sch +:+ ":") +:+ String "/" (String "/" X)) as Hassoc
        by (by rewrite append_assoc').
      rewrite <- Hc.
      change (sch +:+ "://" +:+ X) with (sch +:+ String ":" (String "/" (String "/" X))).
      rewrite Hassoc.
      rewrite (rstrip_app_keep "/" (sch +:+ ":"));
        [by rewrite append_assoc'|by destruct sch|by rewrite ends_with_app_char]. }
    rewrite Hshape. rewrite Hshape in Hascii, Hsemi, Hl, Hr, Hq, Hf, Hunsafe.
    apply clean_of_canonical; try done.
    + rewrite !rstrip_cons. pose proof (rstrip_ends_with "/" X) as Hend.
      destruct (rstrip "/" X) as [|a R]; [by left|].
      right. exists (String a R). done.
    + intros x Hx. repeat (apply elem_of_cons in Hx as [->|Hx]); try done.
      * apply Hunsafe. set_solver.
      * apply Hunsafe. set_solver.
      * apply Hunsafe. set_solver.
      * by apply elem_of_nil in Hx.
Qed.

End Idempotence.

(** * The normalizer and the identifier *)

Section Normalizer.
Import PyStr Urllib Scraper.
Context `{NetlocChecks}.

(** C4, as amended. Two raw URLs that differ only in their query string
    (one may have none) have the same canonical form, and so have a URL
    without [;] and the same URL with a slash added at its end. The scheme
    is kept, so URLs that differ in it are not identified. *)
Theorem clean_identifies_query_and_trailing_slash (url : string) :
  (forall q1 q2, clean (url +:+ "?" +:+ q1) = clean (url +:+ "?" +:+ q2))
  /\ (forall q, clean (url +:+ "?" +:+ q) = clean url)
  /\ (has_char ";" url = false -> clean (url +:+ "/") = clean url).
Proof.
  split_and!.
  - intros q1 q2. change ("?" +:+ q1) with (String "?" q1).
    change ("?" +:+ q2) with (String "?" q2). by rewrite !clean_app_path.
  - intros q. change ("?" +:+ q) with (String "?" q). by rewrite clean_app_path.
  - apply clean_app_slash.
Qed.

(** C5, as amended. The canonical form of a raw URL does not depend on its
    query string or fragment; it exists exactly when [urlparse] accepts the
    URL; it is the scheme, [://], the netloc and the path of [urlparse]
    with every trailing slash removed, so that it never ends in a slash;
    and it holds neither [?] nor [#]. *)
Theorem clean_strips_query_fragment_and_slashes (url : string) :
  (forall q, clean (url +:+ "?" +:+ q) = clean url)
  /\ (forall f, clean (url +:+ "#" +:+ f) = clean url)
  /\ (forall e, urlparse url = Raise e <-> clean url = Raise e)
  /\ (forall c, clean url = Ok c ->
        ends_with "/" c = false /\ has_char "?" c = false /\ has_char "#" c = false
        /\ exists p k,
             urlparse url = Ok p
             /\ scheme p +:+ "://" +:+ netloc p +:+ path p = c +:+ replicate_char k "/").
Proof.
  split_and!.
  - intros q. change ("?" +:+ q) with (String "?" q). by rewrite clean_app_path.
  - intros f. change ("#" +:+ f) with (String "#" f). by rewrite clean_app_path.
  - intros e. unfold clean. destruct (urlparse url) as [p|e']; split; congruence.
  - intros c Hc. destruct (clean_shape url c Hc) as (Hq & Hf & Hs).
    split_and!; try done.
    unfold clean in Hc. destruct (urlparse url) as [p|e]; [|done].
    injection Hc as <-.
    destruct (rstrip_replicate "/" (scheme p +:+ "://" +:+ netloc p +:+ path p)) as [k Hk].
    by exists p, k.
Qed.

(** C6, as amended. [ensure_username_from_url] fails exactly when [urlparse]
    does, which never happens for an ASCII URL without square brackets.
    Otherwise it returns the first non-empty piece of the path split at
    slashes: the path is some slashes, then the returned name, which holds
    no slash, then nothing or a slash and more; the name is empty only when
    the path holds nothing but slashes. *)
Theorem ensure_username_first_segment (url : string) :
  (forall e, urlparse url = Raise e <-> ensure_username_from_url url = Raise e)
  /\ (str_isascii url = true -> has_char "[" url = false -> has_char "]" url = false ->
      is_ok (ensure_username_from_url url) = true)
  /\ (forall p, urlparse url = Ok p ->
        exists name k rest,
          ensure_username_from_url url = Ok name
          /\ path p = replicate_char k "/" +:+ name +:+ rest
          /\ has_char "/" name = false
          /\ (rest = "" \/ exists r, rest = String "/" r)
          /\ (name = "" -> rest = "")).
Proof.
  split_and!.
  - intros e. unfold ensure_username_from_url.
    destruct (urlparse url) as [p|e']; split; congruence.
  - intros Hascii Hl Hr. unfold ensure_username_from_url.
    pose proof (urlparse_parts url) as Hp.
    destruct (urlparse url) as [p|e]; [done|].
    by rewrite netloc_error_plain in Hp.
  - intros p Hp. unfold ensure_username_from_url. rewrite Hp.
    rewrite first_segment_spec.
    destruct (lstrip_replicate "/" (path p)) as [k Hk].
    set (tail := lstrip (is_char "/") (path p)) in *.
    exists (before (is_char "/") tail), k, (from (is_char "/") tail).
    split_and!.
    + done.
    + by rewrite before_from.
    + apply has_char_all. eapply all_impl; [|apply (all_before (is_char "/"))]. done.
    + destruct (from_head (is_char "/") tail) as [->|(c & x & -> & Hc)]; [by left|].
      right. exists x. unfold is_char in Hc. apply Ascii.eqb_eq in Hc. by subst.
    + intros Hname.
      destruct (lstrip_head (is_char "/") (path p)) as [Ht|(a & x & Ht & Ha)];
        fold tail in Ht; rewrite Ht in *; [done|].
      simpl in Hname. by rewrite Ha in Hname.
Qed.

(** What the cleaning and deduplication steps return for a list of hits
    holds no duplicate; none of its URLs has a [?] or a [#] or ends in a
    slash; and cleaning leaves unchanged those that start with a letter, are
    ASCII and hold none of [;], [[] and []]. *)
Lemma links_of_results_canonical platform results out :
  links_of_results platform results = Ok out ->
  NoDup out
  /\ forall u, u ∈ out ->
       has_char "?" u = false /\ has_char "#" u = false /\ ends_with "/" u = false
       /\ (starts_alpha u = true -> str_isascii u = true ->
           has_char ";" u = false -> has_char "[" u = false -> has_char "]" u = false ->
           clean u = Ok u).
Proof.
  intros Ho. split; [by eapply links_of_results_NoDup|].
  intros u Hu. apply (links_of_results_elem _ _ _ Ho) in Hu as (h & _ & _ & Hc).
  destruct (clean_shape _ _ Hc) as (Hq & Hf & He). split_and!; try done.
  by apply clean_idempotent with (url := hit_url h).
Qed.

End Normalizer.

Section DiscoveryOutput.
Import PyStr Urllib Scraper.
Context `{NetlocChecks} `{Collaborators}.

(** C10, as amended. Whatever [search_social_links] returns holds no
    duplicate, and none of its URLs has a query string or a fragment (no
    [?], no [#]) or ends in a slash. Cleaning such a URL again leaves it
    unchanged when it starts with a letter (it has a scheme), is ASCII and
    holds none of [;], [[] and []]. *)
Theorem search_social_links_canonical business_name platform max_results w out w' :
  search_social_links business_name platform max_results w = (Ok out, w') ->
  NoDup out
  /\ forall u, u ∈ out ->
       has_char "?" u = false /\ has_char "#" u = false /\ ends_with "/" u = false
       /\ (starts_alpha u = true -> str_isascii u = true ->
           has_char ";" u = false -> has_char "[" u = false -> has_char "]" u = false ->
           clean u = Ok u).
Proof.
  rewrite search_social_links_unfold. cbv zeta.
  destruct (ddgs_text _ _ _) as [[results|e] s]; [|done].
  intros [= Ho _]. by eapply links_of_results_canonical.
Qed.

End DiscoveryOutput.

(** C4: the scheme is kept, and a [;] in the last path segment is dropped
    without a trailing slash but kept with one. *)
Lemma clean_scheme_counterexample :
  @Scraper.clean Demo.accept_all "http://instagram.com/joespizza"
    = Ok "http://instagram.com/joespizza"
  /\ @Scraper.clean Demo.accept_all "https://instagram.com/joespizza"
     = Ok "https://instagram.com/joespizza"
  /\ @Scraper.clean Demo.accept_all "http://instagram.com/joespizza"
     <> @Scraper.clean Demo.accept_all "https://instagram.com/joespizza"
  /\ @Scraper.clean Demo.accept_all "https://instagram.com/joes;pizza"
     = Ok "https://instagram.com/joes"
  /\ @Scraper.clean Demo.accept_all "https://instagram.com/joes;pizza/"
     = Ok "https://instagram.com/joes;pizza".
Proof. split_and!; try (vm_compute; reflexivity). vm_compute. discriminate. Qed.

(** C5: with two trailing slashes none is left. *)
Lemma clean_two_slashes_counterexample :
  @Scraper.clean Demo.accept_all "https://instagram.com/joespizza//"
    = Ok "https://instagram.com/joespizza"
  /\ ends_with "/" "https://instagram.com/joespizza" = false.
Proof. split; vm_compute; reflexivity. Qed.

(** C6: an opening square bracket without its closing one in the netloc. *)
Lemma ensure_username_counterexample :
  @Scraper.ensure_username_from_url Demo.accept_all "https://[instagram.com/joespizza"
  = Raise (ValueError "Invalid IPv6 URL").
Proof. vm_compute. reflexivity. Qed.

(** C10: a returned URL that cleaning changes once more. *)
Lemma search_social_links_not_idempotent_counterexample :
  @Scraper.search_social_links Demo.accept_all Demo.world_of "grill Chicago" "instagram.com" 10
    (Demo.at_call 0 [] ∅)
  = (Ok ["https://www.instagram.com/thegrill;jsessionid=1"], Demo.at_call 1 [] ∅)
  /\ @Scraper.clean Demo.accept_all "https://www.instagram.com/thegrill;jsessionid=1"
     = Ok "https://www.instagram.com/thegrill".
Proof. split; vm_compute; reflexivity. Qed.

Lemma search_social_links_canonical_witness :
  NoDup ["https://www.instagram.com/mainstreetbar"; "https://www.instagram.com/cafeluna"]
  /\ forall u,
       u ∈ ["https://www.instagram.com/mainstreetbar"; "https://www.instagram.com/cafeluna"] ->
       PyStr.has_char "?" u = false /\ PyStr.has_char "#" u = false
       /\ ends_with "/" u = false
       /\ (starts_alpha u = true -> PyStr.str_isascii u = true ->
           PyStr.has_char ";" u = false -> PyStr.has_char "[" u = false ->
           PyStr.has_char "]" u = false ->
           @Scraper.clean Demo.accept_all u = Ok u).
Proof.
  apply (@search_social_links_canonical Demo.accept_all Demo.world_of
           "cafe Chicago" "instagram.com" 10 Demo.w0 _ (Demo.at_call 1 [] ∅)).
  vm_compute. reflexivity.
Defined.

(** * Further properties: login and export *)

Section LoginAndExport.
Import PyStr Urllib Scraper.
Context `{Collaborators}.

(** The login step of both scripts never fails a run and writes no file.
    Without two non-empty credentials it does nothing at all; with them, a
    login that raises is reported on the console and nothing else. *)
Theorem login_never_fails (user pass : option string) (ok : message) w :
  fst (login user pass ok w) = Ok tt
  /\ w_files (snd (login user pass ok w)) = w_files w
  /\ (opt_truthy user && opt_truthy pass = false -> login user pass ok w = (Ok tt, w))
  /\ (forall u p e s',
        user = Some u -> pass = Some p -> truthy u = true -> truthy p = true ->
        loader_login u p (w_services w) = (Raise e, s') ->
        login user pass ok w =
        (Ok tt, {| w_services := s';
                   w_events := w_events w ++ [EvPrint (MsgLoginFailed e)];
                   w_files := w_files w |})).
Proof.
  split_and!.
  - apply login_ok.
  - apply keeps_files_login.
  - unfold login, opt_truthy. destruct user as [u|], pass as [p|]; try done.
    by intros ->.
  - intros u p e s' -> -> Hu Hp Hl. unfold login. rewrite Hu, Hp. cbn [andb].
    rewrite try_except_run, bind_run. unfold call. by rewrite Hl.
Qed.

(** The world after [save_to_csv] on a non-empty list of records. *)
Lemma save_to_csv_run (rows : list record) (output : string) w :
  rows <> [] ->
  save_to_csv rows output w =
  (Ok tt,
   {| w_services := w_services w;
      w_events := w_events w ++ [EvPrint (MsgSaved (length rows) output)];
      w_files :=
        <[output := (PStr <$> fieldnames_of rows)
                    :: (row_cells (fieldnames_of rows) <$> rows)]> (w_files w) |}).
Proof.
  intros Hne. destruct rows as [|r0 rs]; [done|].
  set (rows := r0 :: rs) in *.
  unfold save_to_csv. fold rows. cbv zeta. unfold rows at 1.
  rewrite bind_run. unfold open_w at 1, write_file at 1.
  rewrite bind_run. unfold writeheader, writer_writerow, write_file at 1.
  simpl w_files. rewrite lookup_insert_eq. simpl default.
  rewrite bind_run.
  rewrite (writerows_run output (fieldnames_of rows)
             (row_cells (fieldnames_of rows)) rows _ [PStr <$> fieldnames_of rows]).
  - unfold print, emit. simpl. by rewrite !insert_insert_eq.
  - intros r Hr. by apply dict_to_list_ok.
  - simpl. by rewrite lookup_insert_eq.
Qed.

(** [save_to_csv] never raises and leaves the services alone. With no
    record it leaves every file as it is. Otherwise the output file holds
    the header and the rows whatever it held before, and every other file
    is as it was. *)
Theorem save_to_csv_total_and_local (rows : list record) (output : string) w :
  fst (save_to_csv rows output w) = Ok tt
  /\ w_services (snd (save_to_csv rows output w)) = w_services w
  /\ (rows = [] -> w_files (snd (save_to_csv rows output w)) = w_files w)
  /\ (forall f, f <> output ->
        w_files (snd (save_to_csv rows output w)) !! f = w_files w !! f)
  /\ (rows <> [] ->
      forall old,
        w_files (snd (save_to_csv rows output
                        {| w_services := w_services w; w_events := w_events w;
                           w_files := <[output := old]> (w_files w) |})) !! output
        = w_files (snd (save_to_csv rows output w)) !! output).
Proof.
  destruct (decide (rows = [])) as [->|Hne].
  - split_and!; try done.
  - split_and!; rewrite ?save_to_csv_run by done; simpl; try done.
    + intros f Hf. by rewrite lookup_insert_ne.
    + intros _ old. rewrite save_to_csv_run by done. simpl.
      by rewrite !lookup_insert_eq.
Qed.

End LoginAndExport.

(** * Further properties: the records and the columns *)

Section Records.
Import PyStr Urllib Scraper.
Context `{Collaborators}.

(** An Instagram record has the same nine fields whatever the profile; its
    [url] is built from the user name the back-end reports; a biography or
    an external URL that is missing or empty is the empty string, never
    [None]. The call prints nothing and writes no file, and what the
    back-end raises is raised. *)
Theorem instagram_record_shape (username : string) w :
  w_events (snd (extract_instagram_data username w)) = w_events w
  /\ w_files (snd (extract_instagram_data username w)) = w_files w
  /\ (forall e s, Profile_from_username username (w_services w) = (Raise e, s) ->
        fst (extract_instagram_data username w) = Raise e)
  /\ (forall p s, Profile_from_username username (w_services w) = (Ok p, s) ->
        exists d,
          fst (extract_instagram_data username w) = Ok d
          /\ dom d = list_to_set INSTAGRAM_FIELDS
          /\ d !! "platform" = Some (PStr "instagram")
          /\ d !! "username" = Some (PStr (ig_username p))
          /\ d !! "url" =
             Some (PStr ("https://www.instagram.com/" +:+ ig_username p +:+ "/"))
          /\ (exists bio, d !! "bio" = Some (PStr bio)
                /\ (forall b, ig_biography p = Some b -> bio = b))
          /\ (exists ext, d !! "external_url" = Some (PStr ext)
                /\ (forall x, ig_external_url p = Some x -> ext = x))).
Proof.
  unfold extract_instagram_data. rewrite bind_run. unfold call.
  destruct (Profile_from_username username (w_services w)) as [[p|e] s] eqn:Hp;
    cbv beta iota zeta; rewrite ?ret_run; cbn [fst snd w_events w_files];
    split_and!; try done.
  - intros p' s' [= <- <-]. eexists. split; [reflexivity|].
    split_and!.
    + rewrite dom_list_to_map_L. unfold INSTAGRAM_FIELDS. simpl. set_solver.
    + by vm_compute.
    + by vm_compute.
    + by vm_compute.
    + exists (or_str (ig_biography p) ""). split; [by vm_compute|].
      intros b ->. simpl. by destruct b.
    + exists (or_str (ig_external_url p) ""). split; [by vm_compute|].
      intros b ->. simpl. by destruct b.
  - by intros e' s' [= <- <-].
Qed.

(** A Facebook record has the same eleven fields whatever the back-end's
    dict holds, its own extra keys included. The [url] field is never
    empty: it is the dict's [link] when that is truthy, and otherwise the
    facebook.com address of the user name asked for. The [username] field
    falls back to the user name asked for in the same way. *)
Theorem facebook_record_shape (username : string) (cookies : option string) w :
  w_events (snd (extract_facebook_data username cookies w)) = w_events w
  /\ w_files (snd (extract_facebook_data username cookies w)) = w_files w
  /\ (forall e s, get_profile username cookies (w_services w) = (Raise e, s) ->
        fst (extract_facebook_data username cookies w) = Raise e)
  /\ (forall p s, get_profile username cookies (w_services w) = (Ok p, s) ->
        exists d url name,
          fst (extract_facebook_data username cookies w) = Ok d
          /\ dom d = list_to_set FACEBOOK_FIELDS
          /\ d !! "platform" = Some (PStr "facebook")
          /\ d !! "url" = Some url /\ pyval_truthy url = true
          /\ (or_val (p !! "link") PNone = PNone ->
              url = PStr ("https://www.facebook.com/" +:+ username))
          /\ d !! "username" = Some name
          /\ (truthy username = true -> pyval_truthy name = true)
          /\ (or_val (p !! "username") PNone = PNone -> name = PStr username)).
Proof.
  unfold extract_facebook_data. rewrite bind_run. unfold call.
  destruct (get_profile username cookies (w_services w)) as [[p|e] s] eqn:Hp;
    cbv beta iota zeta; rewrite ?ret_run; cbn [fst snd w_events w_files];
    split_and!; try done.
  - intros p' s' [= <- <-].
    eexists _, (or_val (p !! "link") (PStr ("https://www.facebook.com/" +:+ username))),
      (or_val (p !! "username") (PStr username)).
    split; [reflexivity|].
    split_and!.
    + rewrite dom_list_to_map_L. unfold FACEBOOK_FIELDS. simpl. set_solver.
    + by vm_compute.
    + by vm_compute.
    + unfold or_val. destruct (p !! "link") as [v|]; [|done].
      by destruct (pyval_truthy v) eqn:Hv.
    + unfold or_val. destruct (p !! "link") as [v|]; [|done].
      destruct (pyval_truthy v) eqn:Hv; [|done]. intros ->. done.
    + by vm_compute.
    + intros Hu. unfold or_val. destruct (p !! "username") as [v|]; [|done].
      by destruct (pyval_truthy v) eqn:Hv.
    + unfold or_val. destruct (p !! "username") as [v|]; [|done].
      destruct (pyval_truthy v) eqn:Hv; [|done]. intros ->. done.
  - by intros e' s' [= <- <-].
Qed.

(** A sorted duplicate-free list is the sorted list of its elements. *)
Lemma merge_sort_elements (l : list string) :
  StronglySorted String.le l -> NoDup l ->
  merge_sort String.le (elements (list_to_set l : gset string)) = l.
Proof.
  intros Hs Hn. apply (StronglySorted_unique String.le).
  - apply StronglySorted_merge_sort; apply _.
  - done.
  - rewrite merge_sort_Permutation. by apply elements_list_to_set.
Qed.

Lemma union_dom_same (rows : list record) (X : gset string) :
  rows <> [] -> Forall (fun r => dom r = X) rows -> ⋃ (dom <$> rows) = X.
Proof.
  intros Hne Hall. induction Hall as [|r rs Hr Hrs IH]; [done|].
  rewrite fmap_cons.
  change (⋃ (dom r :: (dom <$> rs))) with (dom r ∪ ⋃ (dom <$> rs)).
  destruct rs as [|r' rs'].
  - simpl. set_solver.
  - rewrite IH by done. set_solver.
Qed.

(** The columns of the export by what was collected: the nine Instagram
    fields when every record is an Instagram record, the eleven Facebook
    fields when every record is a Facebook record, and the fifteen fields
    of both, sorted together, when both kinds occur. *)
Theorem export_columns_by_platform (rows : list record) :
  Forall (fun r => dom r = list_to_set INSTAGRAM_FIELDS
                   \/ dom r = list_to_set FACEBOOK_FIELDS) rows ->
  fieldnames_of rows =
  match bool_decide (Exists (fun r => dom r = list_to_set INSTAGRAM_FIELDS) rows),
        bool_decide (Exists (fun r => dom r = list_to_set FACEBOOK_FIELDS) rows) with
  | true, true => ALL_FIELDS
  | true, false => INSTAGRAM_FIELDS
  | false, true => FACEBOOK_FIELDS
  | false, false => []
  end.
Proof.
  intros Hall.
  assert (list_to_set INSTAGRAM_FIELDS ∪ list_to_set FACEBOOK_FIELDS
          = (list_to_set ALL_FIELDS : gset string)) as Hboth.
  { unfold INSTAGRAM_FIELDS, FACEBOOK_FIELDS, ALL_FIELDS. simpl. set_solver. }
  assert (forall l, StronglySorted String.le l -> NoDup l ->
            ⋃ (dom <$> rows) = list_to_set l -> fieldnames_of rows = l) as Hfin.
  { intros l Hs Hn Hu. unfold fieldnames_of. rewrite Hu. by apply merge_sort_elements. }
  repeat case_bool_decide.
  - apply Hfin.
    + unfold ALL_FIELDS. repeat constructor; by vm_compute.
    + unfold ALL_FIELDS. apply (bool_decide_unpack _). by vm_compute.
    + rewrite <- Hboth. apply set_eq. intros k.
      rewrite elem_of_union_list, elem_of_union. split.
      * intros (X & HX & Hk). apply list_elem_of_fmap in HX as (r & -> & Hr).
        rewrite Forall_forall in Hall. destruct (Hall r Hr) as [<- | <-]; auto.
      * rewrite Exists_exists in *.
        destruct H0 as (r1 & Hr1 & Hd1). destruct H1 as (r2 & Hr2 & Hd2).
        intros [Hk|Hk]; [exists (dom r1)|exists (dom r2)];
          (split; [apply list_elem_of_fmap; eauto|by rewrite ?Hd1, ?Hd2]).
  - apply Hfin.
    + unfold INSTAGRAM_FIELDS. repeat constructor; by vm_compute.
    + unfold INSTAGRAM_FIELDS. apply (bool_decide_unpack _). by vm_compute.
    + apply union_dom_same.
      * intros ->. by apply Exists_nil in H0.
      * rewrite Forall_forall in *. intros r Hr. destruct (Hall r Hr) as [?|Hf]; [done|].
        exfalso. apply H1. apply Exists_exists. eauto.
  - apply Hfin.
    + unfold FACEBOOK_FIELDS. repeat constructor; by vm_compute.
    + unfold FACEBOOK_FIELDS. apply (bool_decide_unpack _). by vm_compute.
    + apply union_dom_same.
      * intros ->. by apply Exists_nil in H1.
      * rewrite Forall_forall in *. intros r Hr. destruct (Hall r Hr) as [Hi|?]; [|done].
        exfalso. apply H0. apply Exists_exists. eauto.
  - destruct rows as [|r rs]; [by vm_compute|].
    exfalso. apply Forall_cons in Hall as [[Hr|Hr] _].
    + apply H0. by left.
    + apply H1. by left.
Qed.

End Records.

(** * Further properties: edges of the dispatchers *)

Section DispatchEdges.
Import PyStr Urllib Scraper.
Context `{NetlocChecks} `{Collaborators}.

(** A URL from which no identifier can be derived is skipped by both
    dispatchers: nothing is called, printed or added for it, so it can be
    dropped from the list. *)
Theorem dispatch_skips_url_without_identifier platform cookies l1 u l2 rows w :
  ensure_username_from_url u = Ok "" ->
  Scraper.dispatch platform cookies (l1 ++ u :: l2) rows w
  = Scraper.dispatch platform cookies (l1 ++ l2) rows w
  /\ CityScraper.dispatch platform cookies (l1 ++ u :: l2) rows w
     = CityScraper.dispatch platform cookies (l1 ++ l2) rows w.
Proof.
  intros Hu. unfold Scraper.dispatch, CityScraper.dispatch.
  rewrite !for_fold_app. split.
  - destruct (for_fold l1 _ rows w) as [[rows1|e] w1]; [|done].
    rewrite for_fold_cons. unfold Scraper.dispatch_url at 1.
    by rewrite bind_run, lift_outcome_run, Hu.
  - destruct (for_fold l1 _ rows w) as [[rows1|e] w1]; [|done].
    rewrite for_fold_cons. unfold CityScraper.dispatch_url at 1.
    by rewrite bind_run, lift_outcome_run, Hu.
Qed.

(** A URL that [urlparse] rejects is not caught by the [try] around the
    extraction: both dispatchers stop there with that error, in the world
    the URLs before it left; the records collected so far are not returned
    and the URLs after it are not looked at. *)
Theorem dispatch_aborts_on_rejected_url platform cookies l1 u l2 rows e w :
  ensure_username_from_url u = Raise e ->
  (forall rows1 w1,
      Scraper.dispatch platform cookies l1 rows w = (Ok rows1, w1) ->
      Scraper.dispatch platform cookies (l1 ++ u :: l2) rows w = (Raise e, w1))
  /\ (forall rows1 w1,
        CityScraper.dispatch platform cookies l1 rows w = (Ok rows1, w1) ->
        CityScraper.dispatch platform cookies (l1 ++ u :: l2) rows w = (Raise e, w1)).
Proof.
  intros Hu. unfold Scraper.dispatch, CityScraper.dispatch. split.
  - intros rows1 w1 H1. rewrite for_fold_app, H1, for_fold_cons.
    unfold Scraper.dispatch_url at 1.
    by rewrite bind_run, lift_outcome_run, Hu.
  - intros rows1 w1 H1. rewrite for_fold_app, H1, for_fold_cons.
    unfold CityScraper.dispatch_url at 1.
    by rewrite bind_run, lift_outcome_run, Hu.
Qed.

Lemma keeps_files_extract_instagram username :
  keeps_files (extract_instagram_data username).
Proof.
  apply keeps_files_bind; [apply keeps_files_call|intros; apply keeps_files_ret].
Qed.

Lemma keeps_files_extract_facebook username cookies :
  keeps_files (extract_facebook_data username cookies).
Proof.
  apply keeps_files_bind; [apply keeps_files_call|intros; apply keeps_files_ret].
Qed.

Lemma keeps_files_main_dispatch platform cookies urls rows :
  keeps_files (Scraper.dispatch platform cookies urls rows).
Proof.
  apply keeps_files_for_fold. intros url acc.
  apply keeps_files_bind; [apply keeps_files_lift|]. intros username.
  destruct (negb (truthy username)); [apply keeps_files_ret|].
  apply keeps_files_try.
  - apply keeps_files_bind; [|intros; apply keeps_files_ret].
    destruct (String.eqb platform "instagram.com");
      [apply keeps_files_extract_instagram|apply keeps_files_extract_facebook].
  - intros e. apply keeps_files_bind; [apply keeps_files_emit|intros; apply keeps_files_ret].
Qed.

Lemma keeps_files_city_dispatch platform cookies urls rows :
  keeps_files (CityScraper.dispatch platform cookies urls rows).
Proof.
  apply keeps_files_for_fold. intros url acc.
  apply keeps_files_bind; [apply keeps_files_lift|]. intros username.
  destruct (negb (truthy username)); [apply keeps_files_ret|].
  assert (forall e, keeps_files (print (MsgFailed url e) ;;; ret (@None record))) as Hfail.
  { intros e. apply keeps_files_bind; [apply keeps_files_emit|intros; apply keeps_files_ret]. }
  apply keeps_files_try.
  - apply keeps_files_bind.
    + destruct (String.eqb platform "instagram.com"); apply keeps_files_try.
      * apply keeps_files_bind; [apply keeps_files_extract_instagram|].
        intros; apply keeps_files_ret.
      * intros e. destruct e; try apply Hfail.
        apply keeps_files_bind; [apply keeps_files_emit|]. intros _.
        apply keeps_files_bind; [apply keeps_files_emit|intros; apply keeps_files_ret].
      * apply keeps_files_bind; [apply keeps_files_extract_facebook|].
        intros; apply keeps_files_ret.
      * apply Hfail.
    + intros [d|]; [|apply keeps_files_ret].
      destruct (CityScraper.data_truthy (Some d)); apply keeps_files_ret.
  - intros e. apply keeps_files_bind; [apply keeps_files_emit|intros; apply keeps_files_ret].
Qed.







End DispatchEdges.

(** * Further properties: runs that cannot fail *)

Section PlainRuns.
Import PyStr Urllib Scraper.
Context `{NetlocChecks} `{Collaborators}.














End PlainRuns.

(** * Further properties: order and failure of discovery *)

Section DiscoveryEdges.
Import PyStr Urllib Scraper.
Context `{NetlocChecks} `{Collaborators}.

Lemma collect_urls_exact platform results : forall acc cleaned,
  Forall2 (fun h c => clean (hit_url h) = Ok c)
    (List.filter (fun h => contains platform (hit_url h)) results) cleaned ->
  collect_urls platform results acc = Ok (acc ++ cleaned)%list.
Proof.
  induction results as [|r rest IH]; intros acc cleaned Hf; simpl in *.
  - inversion Hf; subst. by rewrite app_nil_r.
  - destruct (contains platform (hit_url r)); [|by apply IH].
    inversion Hf as [|? c ? cs Hc Hrest]; subst. rewrite Hc.
    rewrite (IH _ cs Hrest). by rewrite <- app_assoc.
Qed.

Lemma unique_loop_NoDup_id urls : forall seen acc,
  NoDup urls -> (forall u, u ∈ urls -> u ∉ seen) ->
  unique_loop urls seen acc = (acc ++ urls)%list.
Proof.
  induction urls as [|u rest IH]; intros seen acc Hn Hs; simpl.
  - by rewrite app_nil_r.
  - apply NoDup_cons in Hn as [Hu Hn]. rewrite decide_True by (apply Hs; by left).
    rewrite IH; [by rewrite <- app_assoc|done|].
    intros x Hx. apply not_elem_of_union. split.
    + apply not_elem_of_singleton. intros ->. done.
    + apply Hs. by right.
Qed.

(** One search call returns the canonical forms of the hits that pass the
    platform filter in the order of the hits, a form that occurs again
    being left out; when the forms are all different the result is exactly
    their list. *)
Theorem links_of_results_in_hit_order platform results cleaned :
  Forall2 (fun h c => clean (hit_url h) = Ok c)
    (List.filter (fun h => contains platform (hit_url h)) results) cleaned ->
  links_of_results platform results = Ok (unique_loop cleaned ∅ [])
  /\ (NoDup cleaned -> links_of_results platform results = Ok cleaned).
Proof.
  intros Hf. unfold links_of_results.
  rewrite (collect_urls_exact platform results [] cleaned Hf). simpl.
  split; [done|]. intros Hn. by rewrite unique_loop_NoDup_id.
Qed.

(** A hit that passes the platform filter and whose URL [urlparse] rejects
    fails the whole search call with that error: the hits before it that
    were already cleaned are not returned, and the hits after it are not
    looked at. *)
Theorem search_aborts_on_rejected_hit platform l1 h l2 e :
  Forall (fun h1 => contains platform (hit_url h1) = true ->
                    is_ok (clean (hit_url h1)) = true) l1 ->
  contains platform (hit_url h) = true ->
  clean (hit_url h) = Raise e ->
  links_of_results platform (l1 ++ h :: l2) = Raise e
  /\ (forall business_name max_results w s,
        ddgs_text
          (business_name +:+ " " +:+ List.hd "" (split "." platform) +:+ " " +:+ platform)
          max_results (w_services w) = (Ok (l1 ++ h :: l2)%list, s) ->
        search_social_links business_name platform max_results w =
        (Raise e, {| w_services := s; w_events := w_events w; w_files := w_files w |})).
Proof.
  intros Hl1 Hp He.
  assert (links_of_results platform (l1 ++ h :: l2) = Raise e) as Hr.
  { unfold links_of_results. rewrite collect_urls_app.
    assert (forall acc, exists urls, collect_urls platform l1 acc = Ok urls) as Hok.
    { clear -Hl1. induction Hl1 as [|r rest Hr _ IH]; intros acc; [by exists acc|].
      simpl. destruct (contains platform (hit_url r)); [|apply IH].
      specialize (Hr eq_refl). destruct (clean (hit_url r)); [apply IH|done]. }
    destruct (Hok []) as [urls ->]. simpl. by rewrite Hp, He. }
  split; [done|].
  intros business_name max_results w s Hd.
  rewrite search_social_links_unfold. cbv zeta. by rewrite Hd, Hr.
Qed.

(** With a single keyword [discover_profiles] returns what the one search
    call returns: deduplicating it again changes nothing. With no keyword
    it returns the empty list without calling the search provider. *)
Theorem discover_profiles_single_keyword city kw platform max_per_keyword w :
  CityScraper.discover_profiles city [kw] platform max_per_keyword w
  = search_social_links (kw +:+ " " +:+ city) platform max_per_keyword w
  /\ CityScraper.discover_profiles city [] platform max_per_keyword w = (Ok [], w).
Proof.
  split; [|done].
  rewrite discover_profiles_unfold. unfold per_term_results.
  rewrite for_fold_cons, bind_run.
  pose proof (search_social_links_unfold (kw +:+ " " +:+ city) platform
                max_per_keyword w) as Hs. cbv zeta in Hs.
  destruct (search_social_links _ _ _ w) as [[urls|e] w1] eqn:Hrun; [|done].
  rewrite ret_run. simpl. rewrite app_nil_r.
  rewrite unique_loop_NoDup_id; [done| |set_solver].
  destruct (ddgs_text _ _ _) as [[results|e] s]; [|done].
  injection Hs as Hl _. symmetry in Hl. by apply links_of_results_NoDup in Hl.
Qed.

(** The searches are not guarded: when the search for a keyword raises,
    [discover_profiles] ends with that error in the world that search left.
    What the earlier keywords found is not returned and the later keywords
    are not searched. *)
Theorem discover_profiles_aborts_at_first_failure
    city k1 kw k2 platform max_per_keyword w rs w1 e w2 :
  per_term_results city k1 platform max_per_keyword w = (Ok rs, w1) ->
  search_social_links (kw +:+ " " +:+ city) platform max_per_keyword w1 = (Raise e, w2) ->
  CityScraper.discover_profiles city (k1 ++ kw :: k2) platform max_per_keyword w
  = (Raise e, w2).
Proof.
  intros H1 H2. rewrite discover_profiles_unfold. unfold per_term_results in *.
  by rewrite for_fold_app, H1, for_fold_cons, bind_run, H2.
Qed.

End DiscoveryEdges.

(** * Further properties: identifiers and record URLs *)

Section RecordUrls.
Import PyStr Urllib Scraper.
Context `{NetlocChecks}.

(** The identifier by spans. *)
Lemma ensure_parts url :
  ensure_username_from_url url =
  match netloc_error (url_parts url).1.2 with
  | Some e => Raise e
  | None =>
      Ok (before (is_char "/")
            (lstrip (is_char "/")
               (strip_params (url_parts url).1.1 (before ends_path (url_parts url).2))))
  end.
Proof.
  unfold ensure_username_from_url. pose proof (urlparse_parts url) as Hp.
  destruct (urlparse url) as [p|e].
  - destruct Hp as (-> & _ & _ & Hpath). cbv zeta.
    by rewrite first_segment_spec, Hpath.
  - by rewrite Hp.
Qed.

(** The identifier of a URL does not depend on its query string or its
    fragment, and a URL is rejected with one exactly when it is rejected
    without. *)
Theorem identifier_ignores_query_and_fragment (url : string) :
  (forall q, ensure_username_from_url (url +:+ "?" +:+ q) = ensure_username_from_url url)
  /\ (forall f, ensure_username_from_url (url +:+ "#" +:+ f) = ensure_username_from_url url).
Proof.
  assert (forall c x, ends_path c = true ->
            ensure_username_from_url (url +:+ String c x) = ensure_username_from_url url)
    as Hgen.
  { intros c x Hc. rewrite !ensure_parts, url_parts_app_path by done.
    simpl fst. simpl snd. by rewrite before_app_hit. }
  split; intros x; by apply Hgen.
Qed.

Lemma from_all P s : all (fun a => negb (P a)) s = true -> from P s = "".
Proof.
  induction s as [|a s IH]; [done|]. simpl. intros Ha.
  apply andb_prop in Ha as [Ha Hs]. apply negb_true_iff in Ha. rewrite Ha. auto.
Qed.

Lemma name_char_facts s :
  all name_char s = true ->
  all (fun a => negb (is_delim a)) s = true
  /\ all (fun a => negb (ends_path a)) s = true
  /\ all (fun a => negb (is_char "/" a)) s = true
  /\ has_char ";" s = false
  /\ has_char "009" s = false /\ has_char "013" s = false /\ has_char "010" s = false.
Proof.
  intros Hs. rewrite !has_char_all.
  split_and!; (eapply all_impl; [|exact Hs]); intros a; unfold name_char, is_delim,
    ends_path, is_char;
    destruct (Ascii.eqb a "/"), (Ascii.eqb a "?"), (Ascii.eqb a "#"), (Ascii.eqb a ";"),
      (Ascii.eqb a "009"), (Ascii.eqb a "013"), (Ascii.eqb a "010"); done.
Qed.

Lemma lstrip_slash_name name tail :
  all name_char name = true -> (tail = "" \/ tail = "/") ->
  before (is_char "/") (lstrip (is_char "/") (String "/" (name +:+ tail))) = name.
Proof.
  intros Hn Ht. destruct (name_char_facts name Hn) as (_ & _ & Hs & _).
  change (lstrip (is_char "/") (String "/" (name +:+ tail)))
    with (lstrip (is_char "/") (name +:+ tail)).
  destruct name as [|a x].
  - by destruct Ht as [-> | ->].
  - cbn [all] in Hs. apply andb_prop in Hs as [Ha Hx]. apply negb_true_iff in Ha.
    cbn [String.append lstrip]. rewrite Ha.
    change (String a (x +:+ tail)) with (String a x +:+ tail).
    destruct Ht as [-> | ->].
    + rewrite append_empty_r. apply before_all. cbn [all]. by rewrite Ha, Hx.
    + rewrite before_app_hit by done. apply before_all. cbn [all]. by rewrite Ha, Hx.
Qed.

Lemma ends_with_app c X Y : Y <> "" -> ends_with c (X +:+ Y) = ends_with c Y.
Proof.
  intros HY. induction X as [|a X IH]; [done|].
  cbn [String.append]. cbn [ends_with]. rewrite IH.
  destruct (X +:+ Y) eqn:HXY; [|done].
  destruct X; [by subst|done].
Qed.

Lemma ends_with_absent c s : has_char c s = false -> ends_with c s = false.
Proof.
  induction s as [|a s IH]; [done|]. rewrite has_char_cons.
  intros Ha. apply orb_false_elim in Ha as [Ha Hs]. cbn [ends_with].
  destruct s; [done|auto].
Qed.

(** The parts of [https://host/name] and [https://host/name/]. *)
Lemma url_parts_host_name host name tail :
  all name_char host = true -> all name_char name = true ->
  (tail = "" \/ tail = "/") ->
  url_parts ("https://" +:+ host +:+ String "/" (name +:+ tail))
  = ("https", host, String "/" (name +:+ tail)).
Proof.
  intros Hh Hn Ht.
  destruct (name_char_facts host Hh) as (Hhd & _ & _ & _ & Hh1 & Hh2 & Hh3).
  destruct (name_char_facts name Hn) as (_ & _ & _ & _ & Hn1 & Hn2 & Hn3).
  assert (forall x, x ∈ ["009"; "013"; "010"]%char ->
            has_char x ("//" +:+ host +:+ String "/" (name +:+ tail)) = false) as Hsafe.
  { intros x Hx.
    assert (has_char x host = false /\ has_char x name = false /\ Ascii.eqb "/" x = false
            /\ has_char x tail = false) as (Hxh & Hxn & Hxs & Hxt).
    { repeat (apply elem_of_cons in Hx as [-> | Hx]); try by apply elem_of_nil in Hx.
      all: split_and!; try done; by destruct Ht as [-> | ->]. }
    change ("//" +:+ host +:+ String "/" (name +:+ tail))
      with (String "/" (String "/" (host +:+ String "/" (name +:+ tail)))).
    rewrite !has_char_cons, Hxs, has_char_app, Hxh, has_char_cons, Hxs, has_char_app,
      Hxn, Hxt. done. }
  change ("https://" +:+ host +:+ String "/" (name +:+ tail))
    with ("https" +:+ String ":" ("//" +:+ host +:+ String "/" (name +:+ tail))).
  rewrite url_parts_of_scheme; try done.
  - unfold split_netloc.
    change (startswith "//" ("//" +:+ host +:+ String "/" (name +:+ tail))) with true.
    change (drop 2 ("//" +:+ host +:+ String "/" (name +:+ tail)))
      with (host +:+ String "/" (name +:+ tail)).
    cbv iota. cbn [fst snd].
    rewrite before_app_hit, from_app_hit by done.
    by rewrite (before_all _ _ Hhd), (from_all _ _ Hhd).
  - change ("https" +:+ String ":" ("//" +:+ host +:+ String "/" (name +:+ tail)))
      with (String "h" (String "t" (String "t" (String "p" (String "s" (String ":"
              ("//" +:+ host +:+ String "/" (name +:+ tail)))))))).
    rewrite !has_char_cons. rewrite Hsafe by set_solver. done.
  - change ("https" +:+ String ":" ("//" +:+ host +:+ String "/" (name +:+ tail)))
      with (String "h" (String "t" (String "t" (String "p" (String "s" (String ":"
              ("//" +:+ host +:+ String "/" (name +:+ tail)))))))).
    rewrite !has_char_cons. rewrite Hsafe by set_solver. done.
  - change ("https" +:+ String ":" ("//" +:+ host +:+ String "/" (name +:+ tail)))
      with (String "h" (String "t" (String "t" (String "p" (String "s" (String ":"
              ("//" +:+ host +:+ String "/" (name +:+ tail)))))))).
    rewrite !has_char_cons. rewrite Hsafe by set_solver. done.
Qed.

Lemma host_name_round_trip host name tail :
  netloc_error host = None ->
  all name_char host = true -> all name_char name = true ->
  (tail = "" \/ tail = "/") ->
  ensure_username_from_url ("https://" +:+ host +:+ String "/" (name +:+ tail)) = Ok name
  /\ (truthy name = true ->
      clean ("https://" +:+ host +:+ String "/" (name +:+ tail))
      = Ok ("https://" +:+ host +:+ String "/" name)).
Proof.
  intros He Hh Hn Ht.
  destruct (name_char_facts name Hn) as (_ & Hnp & Hns & Hsemi & _).
  assert (strip_params "https" (before ends_path (String "/" (name +:+ tail)))
          = String "/" (name +:+ tail)) as Hpath.
  { rewrite before_all.
    - apply strip_params_no_semicolon.
      rewrite has_char_cons, has_char_app, Hsemi. by destruct Ht as [-> | ->].
    - cbn [all]. rewrite all_app, Hnp. by destruct Ht as [-> | ->]. }
  split.
  - rewrite ensure_parts, url_parts_host_name by done. cbn [fst snd].
    rewrite He, Hpath. by rewrite lstrip_slash_name.
  - intros Htr. rewrite clean_parts, url_parts_host_name by done. cbn [fst snd].
    rewrite He, Hpath. f_equal.
    change ("https" +:+ "://" +:+ host +:+ String "/" (name +:+ tail))
      with ("https://" +:+ host +:+ String "/" (name +:+ tail)).
    replace ("https://" +:+ host +:+ String "/" (name +:+ tail))
      with (("https://" +:+ host +:+ String "/" name) +:+ tail).
    + rewrite rstrip_app_keep.
      * destruct Ht as [-> | ->]; [by rewrite append_empty_r|].
        change (rstrip "/" "/") with "". by rewrite append_empty_r.
      * done.
      * replace ("https://" +:+ host +:+ String "/" name)
          with (("https://" +:+ host +:+ "/") +:+ name).
        -- rewrite ends_with_app by (by destruct name).
           apply ends_with_absent. apply has_char_all. exact Hns.
        -- cbn [String.append]. by rewrite append_assoc'.
    + cbn [String.append]. rewrite append_assoc'. done.
Qed.

(** The profile URL an Instagram record carries, and the fallback URL of a
    Facebook record, lead back to the user name they were built from. For a
    name without [/ ? # ;], tab, CR and LF, the identifier of the address
    followed by the name is the name, with or without a final slash; and
    for a non-empty such name the canonical form of both is the address
    followed by the name, so the identifier of the canonical form is the
    name again. *)
Theorem record_url_round_trip (base name : string) :
  base ∈ ["https://www.instagram.com/"; "https://www.facebook.com/"] ->
  all name_char name = true ->
  ensure_username_from_url (base +:+ name +:+ "/") = Ok name
  /\ ensure_username_from_url (base +:+ name) = Ok name
  /\ (truthy name = true ->
      clean (base +:+ name +:+ "/") = Ok (base +:+ name)
      /\ clean (base +:+ name) = Ok (base +:+ name)).
Proof.
  intros Hb Hn.
  assert (exists host, base = "https://" +:+ host +:+ "/"
                       /\ netloc_error host = None /\ all name_char host = true)
    as (host & -> & He & Hh).
  { apply elem_of_cons in Hb as [-> | Hb]; [by exists "www.instagram.com"|].
    apply list_elem_of_singleton in Hb as ->. by exists "www.facebook.com". }
  assert (forall t, ("https://" +:+ host +:+ "/") +:+ t
                    = "https://" +:+ host +:+ String "/" t) as Happ.
  { intros t. cbn [String.append]. by rewrite append_assoc'. }
  rewrite !Happ.
  destruct (host_name_round_trip host name "/" He Hh Hn) as [Hi1 Hi2]; [by right|].
  destruct (host_name_round_trip host name "" He Hh Hn) as [Hf1 Hf2]; [by left|].
  rewrite append_empty_r in Hf1, Hf2.
  split_and!; [exact Hi1|exact Hf1|].
  intros Ht. split; [exact (Hi2 Ht)|exact (Hf2 Ht)].
Qed.

End RecordUrls.

(** * Further properties: hits without a URL *)

Section MissingUrl.
Import PyStr Urllib Scraper.
Context `{NetlocChecks}.

(** A hit that has neither a non-empty [href] nor a non-empty [url] is
    read as the empty URL, which no platform name occurs in: the hit is
    ignored, wherever it stands among the results. *)
Theorem hit_without_url_is_ignored (platform : string) (r : hit) l1 l2 :
  truthy platform = true ->
  opt_truthy (r !! "href") = false -> opt_truthy (r !! "url") = false ->
  hit_url r = ""
  /\ links_of_results platform (l1 ++ r :: l2) = links_of_results platform (l1 ++ l2).
Proof.
  intros Hp Hh Hu.
  assert (hit_url r = "") as Hr.
  { unfold hit_url, or_str, or_opt, opt_truthy in *.
    destruct (r !! "href") as [h|]; [rewrite Hh|];
      (destruct (r !! "url") as [u|]; [by rewrite Hu|done]). }
  split; [done|]. unfold links_of_results.
  rewrite collect_urls_skip; [done|]. rewrite Hr. by destruct platform.
Qed.

End MissingUrl.

(** * Further properties: the two dispatchers side by side *)

Section TwoDispatchers.
Import PyStr Urllib Scraper.
Context `{NetlocChecks} `{Collaborators}.

Lemma dispatchers_agree platform cookies urls : forall rows w w',
  w_services w = w_services w' ->
  fst (Scraper.dispatch platform cookies urls rows w)
  = fst (CityScraper.dispatch platform cookies urls rows w')
  /\ w_services (snd (Scraper.dispatch platform cookies urls rows w))
     = w_services (snd (CityScraper.dispatch platform cookies urls rows w')).
Proof.
  unfold Scraper.dispatch, CityScraper.dispatch.
  induction urls as [|u us IH]; intros rows w w' Hs; [done|].
  rewrite !for_fold_cons.
  destruct (ensure_username_from_url u) as [name|e] eqn:Hu.
  - destruct (truthy name) eqn:Ht.
    + rewrite (main_dispatch_url_run _ _ _ _ _ _ Hu Ht),
        (city_dispatch_url_run _ _ _ _ _ _ Hu Ht).
      rewrite (extractor_frame _ _ _ w), (extractor_frame _ _ _ w'), <- Hs.
      destruct (extractor platform cookies name (blank (w_services w))) as [[d|e] w1];
        cbn [fst snd]; by apply IH.
    + assert (Scraper.dispatch_url platform cookies u rows w = (Ok rows, w)) as ->.
      { unfold Scraper.dispatch_url. by rewrite bind_run, lift_outcome_run, Hu, Ht. }
      assert (CityScraper.dispatch_url platform cookies u rows w' = (Ok rows, w')) as ->.
      { unfold CityScraper.dispatch_url. by rewrite bind_run, lift_outcome_run, Hu, Ht. }
      by apply IH.
  - assert (Scraper.dispatch_url platform cookies u rows w = (Raise e, w)) as ->.
    { unfold Scraper.dispatch_url. by rewrite bind_run, lift_outcome_run, Hu. }
    assert (CityScraper.dispatch_url platform cookies u rows w' = (Raise e, w')) as ->.
    { unfold CityScraper.dispatch_url. by rewrite bind_run, lift_outcome_run, Hu. }
    done.
Qed.

(** On the same URLs, from the same world, the dispatcher of [scraper.py]
    and the dispatcher of [city_scraper.py] end alike: both return the same
    records or fail with the same error, and both leave the services in
    the same state and the files untouched. They differ only in what they
    print and sleep. *)
Theorem dispatchers_collect_the_same platform cookies urls rows w :
  fst (Scraper.dispatch platform cookies urls rows w)
  = fst (CityScraper.dispatch platform cookies urls rows w)
  /\ w_services (snd (Scraper.dispatch platform cookies urls rows w))
     = w_services (snd (CityScraper.dispatch platform cookies urls rows w))
  /\ w_files (snd (Scraper.dispatch platform cookies urls rows w)) = w_files w
  /\ w_files (snd (CityScraper.dispatch platform cookies urls rows w)) = w_files w.
Proof.
  destruct (dispatchers_agree platform cookies urls rows w w eq_refl) as [Hr Hs].
  split_and!; [done|done| |].
  - apply keeps_files_main_dispatch.
  - apply keeps_files_city_dispatch.
Qed.

End TwoDispatchers.

(** * The further properties on concrete inputs *)

(** One Instagram record and one Facebook record: the export has the
    fifteen columns of both. *)
Lemma export_columns_by_platform_witness :
  Scraper.fieldnames_of
    [ list_to_map ((fun k => (k, PStr "")) <$> INSTAGRAM_FIELDS);
      list_to_map ((fun k => (k, PStr "")) <$> FACEBOOK_FIELDS) ]
  = ALL_FIELDS.
Proof.
  rewrite export_columns_by_platform.
  - vm_compute. reflexivity.
  - constructor; [left; by vm_compute|].
    constructor; [right; by vm_compute|constructor].
Defined.

(** The bare address of the site between two profile URLs. *)
Lemma dispatch_skips_url_without_identifier_witness :
  @Scraper.dispatch Demo.accept_all Demo.world_of "instagram.com" None
    (["https://www.instagram.com/joespizza"] ++
     "https://www.instagram.com" :: ["https://www.instagram.com/cafeluna"]) [] Demo.w0
  = @Scraper.dispatch Demo.accept_all Demo.world_of "instagram.com" None
      (["https://www.instagram.com/joespizza"] ++
       ["https://www.instagram.com/cafeluna"]) [] Demo.w0
  /\ @CityScraper.dispatch Demo.accept_all Demo.world_of "instagram.com" None
       (["https://www.instagram.com/joespizza"] ++
        "https://www.instagram.com" :: ["https://www.instagram.com/cafeluna"]) [] Demo.w0
     = @CityScraper.dispatch Demo.accept_all Demo.world_of "instagram.com" None
         (["https://www.instagram.com/joespizza"] ++
          ["https://www.instagram.com/cafeluna"]) [] Demo.w0.
Proof.
  apply (@dispatch_skips_url_without_identifier Demo.accept_all Demo.world_of).
  vm_compute. reflexivity.
Defined.

(** A canonical form with an unbalanced bracket after a good URL: the
    record of the good URL is scraped, then the dispatcher fails. *)
Lemma dispatch_aborts_on_rejected_url_witness :
  (forall rows1 w1,
      @Scraper.dispatch Demo.accept_all Demo.world_of "instagram.com" None
        ["https://www.instagram.com/joespizza"] [] Demo.w0 = (Ok rows1, w1) ->
      @Scraper.dispatch Demo.accept_all Demo.world_of "instagram.com" None
        (["https://www.instagram.com/joespizza"] ++
         "http://[instagram.com/oldinn" :: ["https://www.instagram.com/cafeluna"])
        [] Demo.w0
      = (Raise (ValueError "Invalid IPv6 URL"), w1))
  /\ (forall rows1 w1,
        @CityScraper.dispatch Demo.accept_all Demo.world_of "instagram.com" None
          ["https://www.instagram.com/joespizza"] [] Demo.w0 = (Ok rows1, w1) ->
        @CityScraper.dispatch Demo.accept_all Demo.world_of "instagram.com" None
          (["https://www.instagram.com/joespizza"] ++
           "http://[instagram.com/oldinn" :: ["https://www.instagram.com/cafeluna"])
          [] Demo.w0
        = (Raise (ValueError "Invalid IPv6 URL"), w1)).
Proof.
  apply (@dispatch_aborts_on_rejected_url Demo.accept_all Demo.world_of).
  vm_compute. reflexivity.
Defined.




(** Three hits, the second on another site: the two profile URLs come out
    in the order of the hits. *)
Lemma links_of_results_in_hit_order_witness :
  @Scraper.links_of_results Demo.accept_all "instagram.com"
    [Demo.href "https://www.instagram.com/mainstreetbar?hl=en";
     Demo.href "https://example.org/about";
     Demo.href "https://www.instagram.com/cafeluna/"]
  = Ok (unique_loop ["https://www.instagram.com/mainstreetbar";
                     "https://www.instagram.com/cafeluna"] ∅ [])
  /\ (NoDup ["https://www.instagram.com/mainstreetbar";
             "https://www.instagram.com/cafeluna"] ->
      @Scraper.links_of_results Demo.accept_all "instagram.com"
        [Demo.href "https://www.instagram.com/mainstreetbar?hl=en";
         Demo.href "https://example.org/about";
         Demo.href "https://www.instagram.com/cafeluna/"]
      = Ok ["https://www.instagram.com/mainstreetbar";
            "https://www.instagram.com/cafeluna"]).
Proof.
  apply (@links_of_results_in_hit_order Demo.accept_all).
  repeat constructor.
Defined.

(** A good hit, a hit with an unbalanced bracket, a good hit: the search
    fails. *)
Lemma search_aborts_on_rejected_hit_witness :
  @Scraper.links_of_results Demo.accept_all "instagram.com"
    ([Demo.href "https://www.instagram.com/joespizza"] ++
     Demo.href "https://[instagram.com/joespizza" ::
     [Demo.href "https://www.instagram.com/cafeluna"])
  = Raise (ValueError "Invalid IPv6 URL")
  /\ (forall business_name max_results w s,
        @ddgs_text Demo.world_of
          (business_name +:+ " " +:+ List.hd "" (PyStr.split "." "instagram.com") +:+ " "
           +:+ "instagram.com")
          max_results (w_services w)
        = (Ok ([Demo.href "https://www.instagram.com/joespizza"] ++
               Demo.href "https://[instagram.com/joespizza" ::
               [Demo.href "https://www.instagram.com/cafeluna"])%list, s) ->
        @Scraper.search_social_links Demo.accept_all Demo.world_of
          business_name "instagram.com" max_results w =
        (Raise (ValueError "Invalid IPv6 URL"),
         {| w_services := s; w_events := w_events w; w_files := w_files w |})).
Proof.
  apply (@search_aborts_on_rejected_hit Demo.accept_all Demo.world_of).
  - repeat constructor.
  - vm_compute. reflexivity.
  - vm_compute. reflexivity.
Defined.

(** The search for the second of three keywords fails: after two calls of
    the provider the discovery ends with its error. *)
Lemma discover_profiles_aborts_at_first_failure_witness :
  @CityScraper.discover_profiles Demo.accept_all Faulty.world_of
    "Chicago" (["bar"] ++ "pub" :: ["cafe"]) "instagram.com" 10 Faulty.w0
  = (Raise (Exception "timed out"), Faulty.at_call 2 [] ∅).
Proof.
  apply (@discover_profiles_aborts_at_first_failure Demo.accept_all Faulty.world_of
           "Chicago" ["bar"] "pub" ["cafe"] "instagram.com" 10 Faulty.w0
           [["https://www.instagram.com/joespizza";
             "https://www.instagram.com/mainstreetbar"]]
           (Faulty.at_call 1 [] ∅)).
  - vm_compute. reflexivity.
  - vm_compute. reflexivity.
Defined.

Lemma record_url_round_trip_witness :
  @Scraper.ensure_username_from_url Demo.accept_all
    ("https://www.instagram.com/" +:+ "joes.pizza_nyc" +:+ "/") = Ok "joes.pizza_nyc"
  /\ @Scraper.ensure_username_from_url Demo.accept_all
       ("https://www.instagram.com/" +:+ "joes.pizza_nyc") = Ok "joes.pizza_nyc"
  /\ (PyStr.truthy "joes.pizza_nyc" = true ->
      @Scraper.clean Demo.accept_all ("https://www.instagram.com/" +:+ "joes.pizza_nyc" +:+ "/")
      = Ok ("https://www.instagram.com/" +:+ "joes.pizza_nyc")
      /\ @Scraper.clean Demo.accept_all ("https://www.instagram.com/" +:+ "joes.pizza_nyc")
         = Ok ("https://www.instagram.com/" +:+ "joes.pizza_nyc")).
Proof.
  apply (@record_url_round_trip Demo.accept_all).
  - by left.
  - vm_compute. reflexivity.
Defined.

(** A hit that carries a title only, between two hits with a URL. *)
Lemma hit_without_url_is_ignored_witness :
  Scraper.hit_url ({[ "title" := "Joe's Pizza" ]} : hit) = ""
  /\ @Scraper.links_of_results Demo.accept_all "instagram.com"
       ([Demo.href "https://www.instagram.com/joespizza"] ++
        {[ "title" := "Joe's Pizza" ]} :: [Demo.href "https://www.instagram.com/cafeluna"])
     = @Scraper.links_of_results Demo.accept_all "instagram.com"
         ([Demo.href "https://www.instagram.com/joespizza"] ++
          [Demo.href "https://www.instagram.com/cafeluna"]).
Proof.
  apply (@hit_without_url_is_ignored Demo.accept_all); vm_compute; reflexivity.
Defined.
